(** * Ingestion and fan-out pipeline of [main.py]

    A shallow embedding of the FastAPI application: the pydantic request
    models, the [processed_agent_data] table, the global [subscriptions]
    registry, the websocket endpoint, the dispatcher
    [send_data_to_subscribers] and the CRUD handlers.  Handlers are
    computations in a state-and-exception monad over a [World] holding the
    table, the registry, the state of the connections and a trace of the
    observable effects. *)

From Stdlib Require Import ZArith Floats Ascii String.
From stdpp Require Import gmap strings list fin_maps fin_sets pretty.

Local Open Scope Z_scope.
Set Warnings "-register-all,-clear-no-such-hyp".

(** ** Request models *)

Module Models.

(** [class AccelerometerData(BaseModel)] *)
Record AccelerometerData := {
  x : float;
  y : float;
  z : float;
}.

(** [class GpsData(BaseModel)] *)
Record GpsData := {
  latitude : float;
  longitude : float;
}.

(** A naive [datetime.datetime] value. *)
Record datetime := {
  year : Z;
  month : Z;
  day : Z;
  hour : Z;
  minute : Z;
  second : Z;
  microsecond : Z;
}.

(** [class AgentData(BaseModel)] *)
Record AgentData := {
  user_id : Z;
  accelerometer : AccelerometerData;
  gps : GpsData;
  timestamp : datetime;
}.

(** [class ProcessedAgentData(BaseModel)] *)
Record ProcessedAgentData := {
  road_state : string;
  agent_data : AgentData;
}.

End Models.

Import Models.

(** ** The [processed_agent_data] table *)

Module Tables.

(** [class ProcessedAgentDataDB(Base)]: one row, keyed by [id]. *)
Record ProcessedAgentDataDB := {
  id : Z;
  road_state : string;
  user_id : Z;
  x : float;
  y : float;
  z : float;
  latitude : float;
  longitude : float;
  timestamp : datetime;
}.

End Tables.

Abbreviation ProcessedAgentDataDB := Tables.ProcessedAgentDataDB.

(** The keyword arguments of [ProcessedAgentDataDB(...)] in the create
    handler, with the primary key the engine assigned. *)
Definition db_item_of (pk : Z) (item : ProcessedAgentData) : ProcessedAgentDataDB :=
  {| Tables.id := pk;
     Tables.road_state := Models.road_state item;
     Tables.user_id := Models.user_id (agent_data item);
     Tables.x := Models.x (accelerometer (agent_data item));
     Tables.y := Models.y (accelerometer (agent_data item));
     Tables.z := Models.z (accelerometer (agent_data item));
     Tables.latitude := Models.latitude (gps (agent_data item));
     Tables.longitude := Models.longitude (gps (agent_data item));
     Tables.timestamp := Models.timestamp (agent_data item) |}.

(** "Constructing the ProcessedAgentData model response": the block shared
    by the read, list, update and delete handlers. *)
Definition processed_data_of (db_data : ProcessedAgentDataDB) : ProcessedAgentData :=
  {| Models.road_state := Tables.road_state db_data;
     agent_data :=
       {| Models.user_id := Tables.user_id db_data;
          accelerometer :=
            {| Models.x := Tables.x db_data;
               Models.y := Tables.y db_data;
               Models.z := Tables.z db_data |};
          gps :=
            {| Models.latitude := Tables.latitude db_data;
               Models.longitude := Tables.longitude db_data |};
          Models.timestamp := Tables.timestamp db_data |} |}.

(** ** Python values, exceptions and effects *)

(** The values handed to [json.dumps] by the dispatcher: the JSON-able
    builtins and instances of the pydantic model. *)
Inductive pyobj :=
  | PyNone
  | PyBool (b : bool)
  | PyInt (n : Z)
  | PyStr (s : string)
  | PyList (items : list pyobj)
  | PyDict (entries : list (string * pyobj))
  | PyModel (m : ProcessedAgentData).

(** The exceptions of the program.  [NotModelled] is not one of them: it
    marks an outcome that this embedding does not determine (a timestamp
    outside the forms whose validation is modelled, an iteration that
    depends on the layout of the set's table), and no statement below is
    about a run that ends in it. *)
Inductive exn :=
  | TypeError
  | ValueError (msg : string)
  | KeyError
  | AttributeError
  | RuntimeError (msg : string)
  | HTTPException (status_code : Z) (detail : string)
  | RequestValidationError (msg : string)
  | OperationalError
  | ConnectionClosed
  | NotModelled (what : string).

Inductive result (A : Type) :=
  | Ok (a : A)
  | Raise (e : exn).
Arguments Ok {A} a.
Arguments Raise {A} e.

(** A websocket object is identified by its address. *)
Definition WebSocket := nat.

Inductive event :=
  | EvCommit (db_item : ProcessedAgentDataDB)
  | EvPublish (user_id : Z) (data : pyobj)
  | EvSend (websocket : WebSocket) (frame : string).

(** The state the handlers run against.  [table] and [next_id] are the
    committed content of [processed_agent_data] and its primary-key
    sequence; [faults] is the engine's answer to the coming commits
    ([true]: that commit fails); [subscriptions] is the module-level
    dictionary; [closed] holds the connections whose peer is gone;
    [trace] records commits, publish calls and delivered frames, oldest
    first. *)
Record World := {
  table : gmap Z ProcessedAgentDataDB;
  next_id : Z;
  faults : list bool;
  subscriptions : gmap Z (gset WebSocket);
  closed : gset WebSocket;
  trace : list event;
}.

Definition M (A : Type) : Type := World → result A * World.

Global Instance M_ret : MRet M := λ A a w, (Ok a, w).
Global Instance M_bind : MBind M := λ A B f m w,
  match m w with
  | (Ok a, w') => f a w'
  | (Raise e, w') => (Raise e, w')
  end.

Definition raise {A} (e : exn) : M A := λ w, (Raise e, w).
Definition get_world : M World := λ w, (Ok w, w).
Definition log (e : event) : M unit := λ w,
  (Ok tt, {| table := table w; next_id := next_id w; faults := faults w;
             subscriptions := subscriptions w; closed := closed w;
             trace := trace w ++ [e] |}).
Definition set_subscriptions (s : gmap Z (gset WebSocket)) : M unit := λ w,
  (Ok tt, {| table := table w; next_id := next_id w; faults := faults w;
             subscriptions := s; closed := closed w; trace := trace w |}).

(** [for x in xs: body(x)] *)
Fixpoint for_each {A} (xs : list A) (body : A → M unit) : M unit :=
  match xs with
  | [] => mret tt
  | x :: xs' => body x ;; for_each xs' body
  end.

(** ** [json.dumps] *)

Definition hex_digit (n : N) : ascii :=
  ascii_of_N (if (n <? 10)%N then 48 + n else 87 + n)%N.

(** The escape of one character inside a JSON string, with the default
    [ensure_ascii=True]. *)
Definition json_escape_char (c : ascii) : string :=
  let n := N_of_ascii c in
  if (n =? 34)%N then "\" +:+ String c EmptyString
  else if (n =? 92)%N then "\\"
  else if (n =? 10)%N then "\n"
  else if (n =? 13)%N then "\r"
  else if (n =? 9)%N then "\t"
  else if (n =? 8)%N then "\b"
  else if (n =? 12)%N then "\f"
  else if ((n <? 32) || (126 <? n))%N then
    "\u00" +:+ String (hex_digit (n / 16)) (String (hex_digit (n mod 16)) EmptyString)
  else String c EmptyString.

(** The same with [ensure_ascii=False]: only the quote, the backslash and
    the control characters are escaped. *)
Definition json_escape_char_raw (c : ascii) : string :=
  let n := N_of_ascii c in
  if (n =? 34)%N then "\" +:+ String c EmptyString
  else if (n =? 92)%N then "\\"
  else if (n =? 10)%N then "\n"
  else if (n =? 13)%N then "\r"
  else if (n =? 9)%N then "\t"
  else if (n =? 8)%N then "\b"
  else if (n =? 12)%N then "\f"
  else if (n <? 32)%N then
    "\u00" +:+ String (hex_digit (n / 16)) (String (hex_digit (n mod 16)) EmptyString)
  else String c EmptyString.

Fixpoint json_escape (s : string) : string :=
  match s with
  | EmptyString => EmptyString
  | String c s' => json_escape_char c +:+ json_escape s'
  end.

Definition json_quote (s : string) : string :=
  let q := String (ascii_of_N 34) EmptyString in
  q +:+ json_escape s +:+ q.

Fixpoint json_escape_raw (s : string) : string :=
  match s with
  | EmptyString => EmptyString
  | String c s' => json_escape_char_raw c +:+ json_escape_raw s'
  end.

(** The text frame [send_json] puts on the wire for a string argument:
    [send_json] encodes its argument as JSON once more (with
    [ensure_ascii=False]), so the text arrives as a JSON string.  On the
    text [json.dumps] returned, which is plain ASCII, the two escapes
    agree. *)
Definition frame_text (data : string) : string :=
  let q := String (ascii_of_N 34) EmptyString in
  q +:+ json_escape_raw data +:+ q.

Fixpoint join (sep : string) (parts : list string) : string :=
  match parts with
  | [] => EmptyString
  | [p] => p
  | p :: ps => p +:+ sep +:+ join sep ps
  end.

(** The encoder: [None] where [JSONEncoder.default] raises, which it does
    for every object that is not a builtin, a model instance included. *)
Fixpoint json_encode (o : pyobj) : option string :=
  match o with
  | PyNone => Some "null"
  | PyBool true => Some "true"
  | PyBool false => Some "false"
  | PyInt n => Some (pretty n)
  | PyStr s => Some (json_quote s)
  | PyList items =>
      parts ← (fix go (l : list pyobj) : option (list string) :=
                 match l with
                 | [] => Some []
                 | o' :: l' => p ← json_encode o'; ps ← go l'; Some (p :: ps)
                 end) items;
      Some ("[" +:+ join ", " parts +:+ "]")
  | PyDict entries =>
      parts ← (fix go (l : list (string * pyobj)) : option (list string) :=
                 match l with
                 | [] => Some []
                 | (k, o') :: l' =>
                     p ← json_encode o'; ps ← go l';
                     Some ((json_quote k +:+ ": " +:+ p) :: ps)
                 end) entries;
      Some ("{" +:+ join ", " parts +:+ "}")
  | PyModel _ => None
  end.

Definition json_dumps (data : pyobj) : M string :=
  match json_encode data with
  | Some text => mret text
  | None => raise TypeError
  end.

(** ** Validation of the [timestamp] field *)

Definition digit_of (c : ascii) : option Z :=
  let n := Z.of_N (N_of_ascii c) in
  if (48 <=? n) && (n <=? 57) then Some (n - 48) else None.

(** The [n] leading characters of [s] read as a decimal number, and the
    rest of [s]. *)
Fixpoint take_digits (n : nat) (acc : Z) (s : string) : option (Z * string) :=
  match n with
  | O => Some (acc, s)
  | S n' =>
      match s with
      | EmptyString => None
      | String c s' => d ← digit_of c; take_digits n' (10 * acc + d) s'
      end
  end.

Definition expect (c : ascii) (s : string) : option string :=
  match s with
  | String c' s' => if Ascii.eqb c c' then Some s' else None
  | EmptyString => None
  end.

Definition is_leap (y : Z) : bool :=
  (y mod 4 =? 0) && (negb (y mod 100 =? 0) || (y mod 400 =? 0)).

Definition days_in_month (y m : Z) : Z :=
  if m =? 2 then (if is_leap y then 29 else 28)
  else if (m =? 4) || (m =? 6) || (m =? 9) || (m =? 11) then 30
  else 31.

(** The range checks of the [datetime] constructor. *)
Definition make_datetime (y mo d h mi s us : Z) : option datetime :=
  if (1 <=? y) && (y <=? 9999) && (1 <=? mo) && (mo <=? 12)
     && (1 <=? d) && (d <=? days_in_month y mo)
     && (h <=? 23) && (mi <=? 59) && (s <=? 59)
  then Some {| year := y; month := mo; day := d; hour := h; minute := mi;
               second := s; microsecond := us |}
  else None.

(** [HH:MM:SS] or [HH:MM:SS.ffffff] *)
Definition parse_full_time (s : string) : option (Z * Z * Z * Z) :=
  '(h, s1) ← take_digits 2 0 s;
  s2 ← expect ":" s1;
  '(mi, s3) ← take_digits 2 0 s2;
  s4 ← expect ":" s3;
  '(sec, s5) ← take_digits 2 0 s4;
  match s5 with
  | EmptyString => Some (h, mi, sec, 0)
  | _ =>
    s6 ← expect "." s5;
    '(us, s7) ← take_digits 6 0 s6;
    match s7 with
    | EmptyString => Some (h, mi, sec, us)
    | _ => None
    end
  end.

(** A naive timestamp written in full, [YYYY-MM-DDTHH:MM:SS] with an
    optional [.ffffff] and [T] or a space in the middle, with every field
    in range. *)
Definition parse_full_datetime (s : string) : option datetime :=
  '(y, s1) ← take_digits 4 0 s;
  s2 ← expect "-" s1;
  '(mo, s3) ← take_digits 2 0 s2;
  s4 ← expect "-" s3;
  '(d, s5) ← take_digits 2 0 s4;
  match s5 with
  | String sep tstr =>
      if Ascii.eqb sep "T" || Ascii.eqb sep " " then
        '(h, mi, sec, us) ← parse_full_time tstr;
        make_datetime y mo d h mi sec us
      else None
  | EmptyString => None
  end.

Fixpoint has_digit (s : string) : bool :=
  match s with
  | EmptyString => false
  | String c s' => bool_decide (is_Some (digit_of c)) || has_digit s'
  end.

(** What the [timestamp] field of a model may be built from: a [datetime]
    instance (the handlers build their responses so), a string, an integer,
    or another JSON value ([null], an array or an object). *)
Inductive tsvalue :=
  | TsDatetime (d : datetime)
  | TsStr (s : string)
  | TsNumber (n : Z)
  | TsOther.

(** The validation of the field [timestamp: datetime].  The class also
    declares [check_timestamp], but with [@classmethod] above
    [@field_validator]: the class attribute is then a plain classmethod,
    which the model does not collect as a validator, and the function is
    never called.  What decides is the model's own validation of a
    [datetime] field: an instance passes as it is; a naive timestamp
    written in full is read as that instant; a string without any digit,
    [null], an array or an object is refused.  The other strings (offsets,
    shorter or other forms, fields out of range) and the numbers, which are
    read as Unix times, are left undetermined here. *)
Definition validate_timestamp (value : tsvalue) : result datetime :=
  match value with
  | TsDatetime d => Ok d
  | TsStr s =>
      match parse_full_datetime s with
      | Some d => Ok d
      | None =>
          if has_digit s then Raise (NotModelled "timestamp string")
          else Raise (RequestValidationError "timestamp")
      end
  | TsNumber _ => Raise (NotModelled "timestamp number")
  | TsOther => Raise (RequestValidationError "timestamp")
  end.

(** ** The session: queries and commits *)

Definition set_faults (fs : list bool) (w : World) : World :=
  {| table := table w; next_id := next_id w; faults := fs;
     subscriptions := subscriptions w; closed := closed w; trace := trace w |}.

Definition set_table (t : gmap Z ProcessedAgentDataDB) (w : World) : World :=
  {| table := t; next_id := next_id w; faults := faults w;
     subscriptions := subscriptions w; closed := closed w; trace := trace w |}.

(** [database.commit()]: the engine consumes its next answer.  A commit
    that succeeds applies the pending [change]; one that fails raises and
    applies nothing. *)
Definition commit (change : World → World) : M unit := λ w,
  match faults w with
  | true :: fs => (Raise OperationalError, set_faults fs w)
  | false :: fs => (Ok tt, change (set_faults fs w))
  | [] => (Ok tt, change w)
  end.

(** Modelled from the spec: the primary key the engine assigns.  The
    engine behind [DATABASE_URL] is not in the source; the id of a record
    is "assigned by the Record Store on creation, unique" and "never
    reused", so the key of a new row is the next value of a sequence that
    only moves forward.  [insert_row] is the INSERT flushed by the commit
    of the create handler, for a row built with that key. *)
Definition insert_row (db_item : ProcessedAgentDataDB) (w : World) : World :=
  {| table := <[Tables.id db_item := db_item]> (table w);
     next_id := next_id w + 1; faults := faults w;
     subscriptions := subscriptions w; closed := closed w;
     trace := trace w ++ [EvCommit db_item] |}.

(** [database.add(db_item); database.commit(); database.refresh(db_item)]:
    the refreshed object carries the assigned [id]. *)
Definition add_commit_refresh (item : ProcessedAgentData) : M ProcessedAgentDataDB :=
  w ← get_world;
  let db_item := db_item_of (next_id w) item in
  commit (insert_row db_item);;
  mret db_item.

(** [database.query(ProcessedAgentDataDB).filter(id == pk).first()] *)
Definition query_first (pk : Z) : M (option ProcessedAgentDataDB) := λ w,
  (Ok (table w !! pk), w).

(** [database.query(ProcessedAgentDataDB).all()], in primary-key order
    of the map. *)
Definition query_all : M (list ProcessedAgentDataDB) := λ w,
  (Ok (snd <$> map_to_list (table w)), w).

(** ** The subscription registry and the websocket endpoint *)

(** [websocket_endpoint] from the registration up to the receive loop, for a
    connection whose [await websocket.accept()] has returned: the websocket
    is added to the set of its [user_id]. *)
Definition websocket_endpoint_open (websocket : WebSocket) (user_id : Z) : M unit :=
  w ← get_world;
  (if decide (user_id ∈ dom (subscriptions w))
   then mret tt
   else set_subscriptions (<[user_id := ∅]> (subscriptions w)));;
  w ← get_world;
  match subscriptions w !! user_id with
  | Some s => set_subscriptions (<[user_id := s ∪ {[websocket]}]> (subscriptions w))
  | None => raise KeyError
  end.

(** The [except WebSocketDisconnect] branch:
    [subscriptions[user_id].remove(websocket)].  Both the subscript and
    [set.remove] raise [KeyError] on a missing key. *)
Definition websocket_endpoint_close (websocket : WebSocket) (user_id : Z) : M unit :=
  w ← get_world;
  match subscriptions w !! user_id with
  | Some s =>
      if decide (websocket ∈ s)
      then set_subscriptions (<[user_id := s ∖ {[websocket]}]> (subscriptions w))
      else raise KeyError
  | None => raise KeyError
  end.

(** A whole run of the endpoint for an accepted connection that receives the
    texts [received] and then disconnects: every text is read and
    dropped. *)
Definition websocket_endpoint (websocket : WebSocket) (user_id : Z)
    (received : list string) : M unit :=
  websocket_endpoint_open websocket user_id;;
  for_each received (λ _, mret tt);;
  websocket_endpoint_close websocket user_id.

(** ** The dispatcher *)

(** [websocket.send_json(payload)]: raises on a connection whose peer is
    gone; otherwise the frame that goes out is the JSON encoding of the
    argument. *)
Definition send_json (websocket : WebSocket) (payload : string) : M unit :=
  w ← get_world;
  if decide (websocket ∈ closed w) then raise ConnectionClosed
  else log (EvSend websocket (frame_text payload)).

(** What the task of another connection may do to the registry while the
    dispatcher is suspended in an [await]. *)
Inductive registry_op :=
  | Connect (websocket : WebSocket) (user_id : Z)
  | Disconnect (websocket : WebSocket) (user_id : Z).

(** A step of another task: its effect on the world stays, its exception
    is its own. *)
Definition other_task (m : M unit) : M unit := λ w, (Ok tt, snd (m w)).

Definition run_op (op : registry_op) : M unit :=
  match op with
  | Connect websocket user_id =>
      other_task (websocket_endpoint_open websocket user_id)
  | Disconnect websocket user_id =>
      other_task (websocket_endpoint_close websocket user_id)
  end.

(** The operations the other tasks perform, in this order, while one send
    is awaited; the answer tells whether one of them changed the set of
    [user_id]. *)
Fixpoint interleave (user_id : Z) (ops : list registry_op) : M bool :=
  match ops with
  | [] => mret false
  | op :: ops' =>
      before ← get_world;
      run_op op;;
      after ← get_world;
      touched ← interleave user_id ops';
      mret (negb (bool_decide (default ∅ (subscriptions after !! user_id)
                               = default ∅ (subscriptions before !! user_id)))
            || touched)
  end.

(** The [for websocket in subscriptions[user_id]] loop.  The iterator walks
    the registry's own set object: [used] is the size it had when the loop
    started and [pending] what is left to visit; each step first compares
    the present size with [used], which is all the set iterator checks.
    [sched] gives, for each awaited send, the registry operations that the
    other tasks perform meanwhile.  When they changed the set and left it
    with the size it had, the iterator goes on over a table that is no
    longer the one it started on, and what it visits next depends on the
    layout of that table: the outcome is [NotModelled]. *)
Fixpoint iterate_subscribers (user_id : Z) (used : nat) (pending : list WebSocket)
    (data : pyobj) (sched : list (list registry_op)) : M unit :=
  w ← get_world;
  if decide (size (default ∅ (subscriptions w !! user_id)) = used) then
    match pending with
    | [] => mret tt
    | websocket :: pending' =>
        payload ← json_dumps data;
        send_json websocket payload;;
        touched ← interleave user_id (default [] (head sched));
        w' ← get_world;
        if touched && bool_decide (size (default ∅ (subscriptions w' !! user_id)) = used)
        then raise (NotModelled "set changed during the iteration")
        else iterate_subscribers user_id used pending' data (tail sched)
    end
  else raise (RuntimeError "Set changed size during iteration").

(** [send_data_to_subscribers] under a schedule of the other tasks. *)
Definition send_data_to_subscribers_sched (sched : list (list registry_op))
    (user_id : Z) (data : pyobj) : M unit :=
  log (EvPublish user_id data);;
  w ← get_world;
  match subscriptions w !! user_id with
  | Some s => iterate_subscribers user_id (size s) (elements s) data sched
  | None => mret tt
  end.

(** [send_data_to_subscribers] with no other task running. *)
Definition send_data_to_subscribers (user_id : Z) (data : pyobj) : M unit :=
  send_data_to_subscribers_sched [] user_id data.

(** ** The CRUD handlers *)

(** [create_processed_agent_data]: the handler has no [return]. *)
Fixpoint create_processed_agent_data (data : list ProcessedAgentData) : M unit :=
  match data with
  | [] => mret tt
  | item :: data' =>
      add_commit_refresh item;;
      send_data_to_subscribers (Models.user_id (agent_data item)) (PyModel item);;
      create_processed_agent_data data'
  end.

(** [read_processed_agent_data]: [db_data] is used without a test, and
    reading an attribute of [None] raises [AttributeError]. *)
Definition read_processed_agent_data (processed_agent_data_id : Z)
    : M ProcessedAgentData :=
  db_data ← query_first processed_agent_data_id;
  match db_data with
  | Some row => mret (processed_data_of row)
  | None => raise AttributeError
  end.

(** [list_processed_agent_data] *)
Definition list_processed_agent_data : M (list ProcessedAgentData) :=
  db_data ← query_all;
  mret (processed_data_of <$> db_data).

(** [update_processed_agent_data] *)
Definition update_processed_agent_data (processed_agent_data_id : Z)
    (data : ProcessedAgentData) : M ProcessedAgentData :=
  db_data ← query_first processed_agent_data_id;
  match db_data with
  | None => raise (HTTPException 404 "Processed agent data not found")
  | Some row =>
      let row' := db_item_of (Tables.id row) data in
      commit (λ w, set_table (<[Tables.id row := row']> (table w)) w);;
      mret (processed_data_of row')
  end.

(** [delete_processed_agent_data] *)
Definition delete_processed_agent_data (processed_agent_data_id : Z)
    : M ProcessedAgentData :=
  db_data ← query_first processed_agent_data_id;
  match db_data with
  | None => raise (HTTPException 404 "Processed agent data not found")
  | Some row =>
      commit (λ w, set_table (delete (Tables.id row) (table w)) w);;
      mret (processed_data_of row)
  end.

(** ** Request validation *)

(** An element of the body of [POST /processed_agent_data/] before the
    [data: List[ProcessedAgentData]] parameter is validated. *)
Record ProcessedAgentDataIn := {
  in_road_state : string;
  in_user_id : Z;
  in_accelerometer : AccelerometerData;
  in_gps : GpsData;
  in_timestamp : tsvalue;
}.

Definition validate_item (raw : ProcessedAgentDataIn) : result ProcessedAgentData :=
  match validate_timestamp (in_timestamp raw) with
  | Ok ts =>
      Ok {| Models.road_state := in_road_state raw;
            agent_data :=
              {| Models.user_id := in_user_id raw;
                 accelerometer := in_accelerometer raw;
                 gps := in_gps raw;
                 Models.timestamp := ts |} |}
  | Raise e => Raise e
  end.

(** The whole list is validated before the handler is called, and one
    refused item refuses the body, wherever it stands. *)
Fixpoint validate_body (body : list ProcessedAgentDataIn)
    : result (list ProcessedAgentData) :=
  match body with
  | [] => Ok []
  | raw :: body' =>
      match validate_item raw, validate_body body' with
      | Raise (RequestValidationError msg), _ => Raise (RequestValidationError msg)
      | _, Raise (RequestValidationError msg) => Raise (RequestValidationError msg)
      | Raise e, _ => Raise e
      | _, Raise e => Raise e
      | Ok item, Ok data => Ok (item :: data)
      end
  end.

(** [POST /processed_agent_data/]: a body that fails validation is answered
    with a validation error and the handler does not run. *)
Definition post_processed_agent_data (body : list ProcessedAgentDataIn) : M unit :=
  match validate_body body with
  | Ok data => create_processed_agent_data data
  | Raise e => raise e
  end.

(** A model handed over with its own [datetime]. *)
Definition to_wire (item : ProcessedAgentData) : ProcessedAgentDataIn :=
  {| in_road_state := Models.road_state item;
     in_user_id := Models.user_id (agent_data item);
     in_accelerometer := accelerometer (agent_data item);
     in_gps := gps (agent_data item);
     in_timestamp := TsDatetime (Models.timestamp (agent_data item)) |}.

(** ** Histories of requests *)

Inductive request :=
  | Post (body : list ProcessedAgentDataIn)
  | Get (processed_agent_data_id : Z)
  | GetAll
  | Put (processed_agent_data_id : Z) (data : ProcessedAgentData)
  | Delete (processed_agent_data_id : Z)
  | WsConnect (websocket : WebSocket) (user_id : Z)
  | WsDisconnect (websocket : WebSocket) (user_id : Z).

(** The world after a request; the response goes to the client. *)
Definition serve (r : request) (w : World) : World :=
  match r with
  | Post body => snd (post_processed_agent_data body w)
  | Get pk => snd (read_processed_agent_data pk w)
  | GetAll => snd (list_processed_agent_data w)
  | Put pk data => snd (update_processed_agent_data pk data w)
  | Delete pk => snd (delete_processed_agent_data pk w)
  | WsConnect ws uid => snd (websocket_endpoint_open ws uid w)
  | WsDisconnect ws uid => snd (websocket_endpoint_close ws uid w)
  end.

Definition serve_all (rs : list request) (w : World) : World :=
  foldl (λ w r, serve r w) w rs.

(** The primary keys of the records created so far. *)
Definition created_ids (tr : list event) : list Z :=
  omap (λ e, match e with EvCommit r => Some (Tables.id r) | _ => None end) tr.

(** The frames delivered so far to one connection. *)
Definition delivered (websocket : WebSocket) (tr : list event) : list string :=
  omap (λ e, match e with
             | EvSend ws payload =>
                 if decide (ws = websocket) then Some payload else None
             | _ => None
             end) tr.

(** A database freshly created by [Base.metadata.create_all]. *)
Definition fresh (w : World) : Prop :=
  table w = ∅ ∧ trace w = [].

(** Rows sit under their own primary key, below the sequence, and every
    key handed out so far is below the sequence too. *)
Definition consistent (w : World) : Prop :=
  (∀ k r, table w !! k = Some r → Tables.id r = k ∧ k < next_id w)
  ∧ (∀ k, k ∈ created_ids (trace w) → k < next_id w).

(** ** Vocabulary of the statements *)

(** The set the dispatcher walks for [user_id]: the registry entry, or
    nothing when [user_id not in subscriptions]. *)
Definition listeners_for (user_id : Z) (w : World) : gset WebSocket :=
  default ∅ (subscriptions w !! user_id).

(** The rows the create handler builds for a batch when the sequence
    stands at [pk]. *)
Fixpoint rows_from (pk : Z) (data : list ProcessedAgentData) : list ProcessedAgentDataDB :=
  match data with
  | [] => []
  | item :: data' => db_item_of pk item :: rows_from (pk + 1) data'
  end.

(** The table after the inserts of [rows], first to last. *)
Definition store_rows (rows : list ProcessedAgentDataDB)
    (t : gmap Z ProcessedAgentDataDB) : gmap Z ProcessedAgentDataDB :=
  foldl (λ t r, <[Tables.id r := r]> t) t rows.

(** What the create handler leaves in the trace for the rows it committed:
    the commit of each row, then the publish call for its item. *)
Definition pipeline_events (rows : list ProcessedAgentDataDB) : list event :=
  rows ≫= λ r, [EvCommit r;
                EvPublish (Tables.user_id r) (PyModel (processed_data_of r))].

(** The next commit is not answered with a failure. *)
Definition commit_succeeds (w : World) : Prop := head (faults w) ≠ Some true.

(** The rows committed so far, oldest first. *)
Definition committed_rows (tr : list event) : list ProcessedAgentDataDB :=
  omap (λ e, match e with EvCommit r => Some r | _ => None end) tr.

(** What the histories preserve. *)
Definition sound (w : World) : Prop :=
  consistent w ∧ NoDup (created_ids (trace w)).

(** The world with more events in its trace. *)
Definition add_trace (evs : list event) (w : World) : World :=
  {| table := table w; next_id := next_id w; faults := faults w;
     subscriptions := subscriptions w; closed := closed w;
     trace := trace w ++ evs |}.

(** The frames of one payload, one per listener. *)
Definition sends (payload : string) (listeners : list WebSocket) : list event :=
  (λ ws, EvSend ws (frame_text payload)) <$> listeners.

(** The schedule leaves the first [n] awaited sends alone. *)
Definition quiet_for (n : nat) (sched : list (list registry_op)) : Prop :=
  ∀ i : nat, (i < n)%nat → default [] (sched !! i) = [].

(** What a registry operation makes of the set [s] of [user_id]: the
    operations on other agents leave it alone. *)
Definition registry_effect (user_id : Z) (op : registry_op) (s : gset WebSocket)
    : gset WebSocket :=
  match op with
  | Connect ws u => if decide (u = user_id) then s ∪ {[ws]} else s
  | Disconnect ws u => if decide (u = user_id) then s ∖ {[ws]} else s
  end.

(** The set [s] of [user_id] after the operations of one await. *)
Definition registry_effects (user_id : Z) (ops : list registry_op) (s : gset WebSocket)
    : gset WebSocket :=
  foldl (λ s op, registry_effect user_id op s) s ops.

(** The operation does not change the set [s] of [user_id]: it is on
    another agent, or it adds a listener that is in [s] already, or its
    removal fails on a listener that is not in [s]. *)
Definition ineffective (user_id : Z) (s : gset WebSocket) (op : registry_op) : Prop :=
  match op with
  | Connect ws u => u ≠ user_id ∨ ws ∈ s
  | Disconnect ws u => u ≠ user_id ∨ ws ∉ s
  end.

(** No operation of the first [n] awaits changes the set [s] of
    [user_id]. *)
Definition untouched_for (n : nat) (user_id : Z) (s : gset WebSocket)
    (sched : list (list registry_op)) : Prop :=
  ∀ (i : nat) ops op, (i < n)%nat → sched !! i = Some ops → op ∈ ops →
    ineffective user_id s op.

(** ** Concrete worlds used in the examples *)

Definition empty_world : World :=
  {| table := ∅; next_id := 1; faults := []; subscriptions := ∅;
     closed := ∅; trace := [] |}.

(** The record of the round-trip example. *)
Definition sample_item : ProcessedAgentData :=
  {| Models.road_state := "dry";
     agent_data :=
       {| Models.user_id := 7;
          accelerometer := {| Models.x := 1.0; Models.y := 2.0; Models.z := 3.0 |};
          gps := {| Models.latitude := 10.5; Models.longitude := 20.5 |};
          Models.timestamp :=
            {| year := 2024; month := 1; day := 1; hour := 0; minute := 0;
               second := 0; microsecond := 0 |} |} |}.

Definition wet_item : ProcessedAgentData :=
  {| Models.road_state := "wet";
     agent_data :=
       {| Models.user_id := 8;
          accelerometer := {| Models.x := 0.5; Models.y := 0.25; Models.z := 9.5 |};
          gps := {| Models.latitude := 50.5; Models.longitude := 30.5 |};
          Models.timestamp :=
            {| year := 2024; month := 1; day := 1; hour := 12; minute := 0;
               second := 0; microsecond := 0 |} |} |}.

(** 2024-01-01 12:00:00 *)
Definition noon : datetime :=
  {| year := 2024; month := 1; day := 1; hour := 12; minute := 0; second := 0;
     microsecond := 0 |}.

(** Items on the wire whose timestamp is a string. *)
Definition bad_raw : ProcessedAgentDataIn :=
  {| in_road_state := "dry"; in_user_id := 7;
     in_accelerometer := accelerometer (agent_data sample_item);
     in_gps := gps (agent_data sample_item);
     in_timestamp := TsStr "not-a-date" |}.

Definition noon_raw : ProcessedAgentDataIn :=
  {| in_road_state := "dry"; in_user_id := 7;
     in_accelerometer := accelerometer (agent_data sample_item);
     in_gps := gps (agent_data sample_item);
     in_timestamp := TsStr "2024-01-01T12:00:00" |}.

(** What [noon_raw] validates to. *)
Definition noon_item : ProcessedAgentData :=
  {| Models.road_state := "dry";
     agent_data :=
       {| Models.user_id := 7;
          accelerometer := accelerometer (agent_data sample_item);
          gps := gps (agent_data sample_item);
          Models.timestamp := noon |} |}.

(** Two listeners on agent 7. *)
Definition two_listeners : World :=
  snd ((websocket_endpoint_open 1%nat 7;; websocket_endpoint_open 2%nat 7) empty_world).

(** The same, with the peer of the first visited listener gone. *)
Definition one_dead : World :=
  {| table := ∅; next_id := 1; faults := []; subscriptions := subscriptions two_listeners;
     closed := {[2%nat]}; trace := [] |}.

(** The empty database after one create. *)
Definition one_record : World :=
  snd (create_processed_agent_data [sample_item] empty_world).

(** A world whose engine accepts two commits and fails the next. *)
Definition third_commit_fails : World :=
  {| table := ∅; next_id := 1; faults := [false; false; true]; subscriptions := ∅;
     closed := ∅; trace := [] |}.

(** ** Vocabulary of the further properties *)

(** The second world has the trace, the registry and the connection states
    of the first: nothing was published, delivered or (un)subscribed in
    between. *)
Definition silent (w w' : World) : Prop :=
  trace w' = trace w ∧ subscriptions w' = subscriptions w ∧ closed w' = closed w.

(** The table with one record and an engine that fails the next commit. *)
Definition one_record_failing : World :=
  set_faults [true] one_record.

(** The engine answers the next [n] commits with success. *)
Definition commits_work (n : nat) (w : World) : Prop :=
  ∀ b, b ∈ take n (faults w) → b = false.

(** ** Basic facts *)

Section Monad.
Context {A B : Type}.

Lemma bind_ok (m : M A) (f : A → M B) w a w1 :
  m w = (Ok a, w1) → (m ≫= f) w = f a w1.
Proof. intros H. unfold mbind, M_bind. by rewrite H. Qed.

Lemma bind_raise (m : M A) (f : A → M B) w e w1 :
  m w = (Raise e, w1) → (m ≫= f) w = (Raise e, w1).
Proof. intros H. unfold mbind, M_bind. by rewrite H. Qed.

End Monad.

Lemma bind_assoc {A B C} (m : M A) (f : A → M B) (g : B → M C) w :
  ((m ≫= f) ≫= g) w = (m ≫= λ a, f a ≫= g) w.
Proof. unfold mbind, M_bind. by destruct (m w) as [[a|e] w1]. Qed.

Lemma processed_data_of_db_item pk item :
  processed_data_of (db_item_of pk item) = item.
Proof. by destruct item as [rs [uid [] [] ts]]. Qed.

Lemma db_item_of_processed_data row :
  db_item_of (Tables.id row) (processed_data_of row) = row.
Proof. by destruct row. Qed.

Lemma world_eta w :
  {| table := table w; next_id := next_id w; faults := faults w;
     subscriptions := subscriptions w; closed := closed w; trace := trace w |} = w.
Proof. by destruct w. Qed.

(** ** The encoder and the validation of timestamps on examples *)

Example json_dumps_dict :
  json_encode (PyDict [("id", PyInt 3); ("tags", PyList [PyStr "dry"; PyNone])])
  = Some ("{" +:+ json_quote "id" +:+ ": 3, " +:+ json_quote "tags" +:+ ": ["
          +:+ json_quote "dry" +:+ ", null]}").
Proof. vm_compute. reflexivity. Qed.

Example json_dumps_del :
  json_encode (PyStr (String (ascii_of_N 127) EmptyString))
  = Some (String (ascii_of_N 34) "\u007f" +:+ String (ascii_of_N 34) EmptyString).
Proof. vm_compute. reflexivity. Qed.

Example frame_of_json_text :
  let q := String (ascii_of_N 34) EmptyString in
  frame_text (json_quote "hi") = q +:+ "\" +:+ q +:+ "hi\" +:+ q +:+ q.
Proof. vm_compute. reflexivity. Qed.

Example validate_timestamp_noon :
  validate_timestamp (TsStr "2024-01-01T12:00:00") = Ok noon.
Proof. reflexivity. Qed.

Example validate_timestamp_micro :
  microsecond <$> parse_full_datetime "2024-02-29 23:59:59.000250" = Some 250.
Proof. reflexivity. Qed.

Example validate_timestamp_not_a_date :
  validate_timestamp (TsStr "not-a-date") = Raise (RequestValidationError "timestamp").
Proof. reflexivity. Qed.

Example validate_timestamp_offset :
  validate_timestamp (TsStr "2024-01-01T12:00:00+00:00")
  = Raise (NotModelled "timestamp string").
Proof. reflexivity. Qed.

(** ** Not-found behaviour of the handlers *)

(** C5 (code defect in the read handler).  For an id absent from the table,
    update and delete raise the 404 [HTTPException] and change nothing,
    while read raises [AttributeError], which is not a not-found signal. *)
Theorem absent_id_handlers (w : World) (pk : Z) (data : ProcessedAgentData) :
  table w !! pk = None →
  read_processed_agent_data pk w = (Raise AttributeError, w)
  ∧ update_processed_agent_data pk data w
    = (Raise (HTTPException 404 "Processed agent data not found"), w)
  ∧ delete_processed_agent_data pk w
    = (Raise (HTTPException 404 "Processed agent data not found"), w).
Proof.
  intros Hnone.
  unfold read_processed_agent_data, update_processed_agent_data,
    delete_processed_agent_data, query_first, mbind, M_bind.
  by rewrite Hnone.
Qed.

Lemma absent_id_handlers_witness :
  table empty_world !! 1 = None
  ∧ read_processed_agent_data 1 empty_world = (Raise AttributeError, empty_world).
Proof.
  split; [reflexivity|].
  apply (absent_id_handlers empty_world 1 sample_item). reflexivity.
Defined.

(** ** Update *)

(** C8.  On an existing id (a row stored under its own [id]) whose commit
    goes through, update answers with the supplied record and leaves under
    that id a row with the same [id]
    and every other column taken from the supplied record, [user_id]
    included; the other rows, the sequence, the registry and the trace are
    untouched. *)
Theorem update_replaces_fields (w : World) (pk : Z) (data : ProcessedAgentData)
    (row : ProcessedAgentDataDB) :
  table w !! pk = Some row →
  Tables.id row = pk →
  commit_succeeds w →
  ∃ w',
    update_processed_agent_data pk data w = (Ok data, w')
    ∧ table w' !! pk = Some (db_item_of pk data)
    ∧ Tables.id (db_item_of pk data) = Tables.id row
    ∧ Tables.user_id (db_item_of pk data) = Models.user_id (agent_data data)
    ∧ processed_data_of (db_item_of pk data) = data
    ∧ (∀ k, k ≠ pk → table w' !! k = table w !! k)
    ∧ next_id w' = next_id w
    ∧ subscriptions w' = subscriptions w
    ∧ trace w' = trace w.
Proof.
  intros Hrow Hid Hok.
  unfold update_processed_agent_data, query_first, mbind, M_bind.
  rewrite Hrow, Hid. unfold commit, commit_succeeds in *.
  rewrite processed_data_of_db_item.
  destruct (faults w) as [|[] fs] eqn:Hf; simpl in *; try congruence.
  - eexists. split; [reflexivity|]. simpl.
    rewrite lookup_insert_eq. repeat split; try done.
    intros k Hk. by rewrite lookup_insert_ne.
  - eexists. split; [reflexivity|]. simpl.
    rewrite lookup_insert_eq. repeat split; try done.
    intros k Hk. by rewrite lookup_insert_ne.
Qed.

Lemma update_replaces_fields_witness :
  ∃ w', update_processed_agent_data 1 wet_item one_record = (Ok wet_item, w')
        ∧ table w' !! 1 = Some (db_item_of 1 wet_item).
Proof.
  destruct (update_replaces_fields one_record 1 wet_item (db_item_of 1 sample_item))
    as (w' & H1 & H2 & _).
  - reflexivity.
  - reflexivity.
  - unfold commit_succeeds. simpl. discriminate.
  - exists w'. split; assumption.
Defined.

(** ** Unsubscribing *)

Lemma websocket_endpoint_open_spec ws uid w :
  ∃ w', websocket_endpoint_open ws uid w = (Ok tt, w')
        ∧ subscriptions w' = <[uid := listeners_for uid w ∪ {[ws]}]> (subscriptions w)
        ∧ table w' = table w ∧ next_id w' = next_id w ∧ faults w' = faults w
        ∧ closed w' = closed w ∧ trace w' = trace w.
Proof.
  unfold websocket_endpoint_open, listeners_for, get_world, set_subscriptions,
    mbind, M_bind, mret, M_ret.
  destruct (decide (uid ∈ dom (subscriptions w))) as [Hin|Hnin]; simpl.
  - apply elem_of_dom in Hin as [s Hs]. rewrite Hs. simpl.
    eexists. split; [reflexivity|]. by simpl.
  - rewrite lookup_insert_eq. apply not_elem_of_dom in Hnin. rewrite Hnin. simpl.
    eexists. split; [reflexivity|]. simpl. by rewrite insert_insert_eq.
Qed.

Lemma websocket_endpoint_close_present ws uid w s :
  subscriptions w !! uid = Some s → ws ∈ s →
  ∃ w', websocket_endpoint_close ws uid w = (Ok tt, w')
        ∧ subscriptions w' = <[uid := s ∖ {[ws]}]> (subscriptions w)
        ∧ table w' = table w ∧ next_id w' = next_id w ∧ faults w' = faults w
        ∧ closed w' = closed w ∧ trace w' = trace w.
Proof.
  intros Hs Hin.
  unfold websocket_endpoint_close, get_world, set_subscriptions, mbind, M_bind.
  rewrite Hs. rewrite decide_True by done.
  eexists. split; [reflexivity|]. by simpl.
Qed.

Lemma websocket_endpoint_close_absent ws uid w :
  ws ∉ listeners_for uid w →
  websocket_endpoint_close ws uid w = (Raise KeyError, w).
Proof.
  unfold listeners_for, websocket_endpoint_close, get_world, mbind, M_bind, raise.
  destruct (subscriptions w !! uid) as [s|]; simpl; [|done].
  intros Hnin. by rewrite decide_False.
Qed.

Lemma for_each_skip {A} (xs : list A) w :
  for_each xs (λ _, mret tt) w = (Ok tt, w).
Proof.
  induction xs as [|x xs IH]; [done|].
  simpl. unfold mbind, M_bind, mret, M_ret at 1. apply IH.
Qed.

(** C9, as the code has it.  On a listener that is present the disconnect
    branch removes exactly that listener from the set of its agent and
    leaves the other agents alone; on a listener or an agent entry that is
    absent it raises [KeyError] and changes nothing; and a whole run of the
    endpoint, which removes the listener it added itself, ends without an
    error and with the listener gone. *)
Theorem unsubscribe_removes_or_raises (ws : WebSocket) (uid : Z) (w : World) :
  (∀ s, subscriptions w !! uid = Some s → ws ∈ s →
     ∃ w', websocket_endpoint_close ws uid w = (Ok tt, w')
           ∧ listeners_for uid w' = s ∖ {[ws]}
           ∧ (∀ u, u ≠ uid → subscriptions w' !! u = subscriptions w !! u))
  ∧ (ws ∉ listeners_for uid w →
     websocket_endpoint_close ws uid w = (Raise KeyError, w))
  ∧ (∀ received,
     ∃ w', websocket_endpoint ws uid received w = (Ok tt, w')
           ∧ (ws ∉ listeners_for uid w')
           ∧ listeners_for uid w' = listeners_for uid w ∖ {[ws]}).
Proof.
  split; [|split].
  - intros s Hs Hin.
    destruct (websocket_endpoint_close_present ws uid w s Hs Hin)
      as (w' & Hrun & Hsubs & _).
    exists w'. split; [done|]. unfold listeners_for. rewrite Hsubs.
    split; [by rewrite lookup_insert_eq|].
    intros u Hu. by rewrite lookup_insert_ne.
  - apply websocket_endpoint_close_absent.
  - intros received. unfold websocket_endpoint.
    destruct (websocket_endpoint_open_spec ws uid w) as (w1 & Hopen & Hsubs1 & _).
    rewrite (bind_ok _ _ _ _ _ Hopen).
    rewrite (bind_ok _ _ _ _ _ (for_each_skip received w1)).
    assert (Hs1 : subscriptions w1 !! uid = Some (listeners_for uid w ∪ {[ws]})).
    { rewrite Hsubs1. apply lookup_insert_eq. }
    destruct (websocket_endpoint_close_present ws uid w1 _ Hs1) as (w2 & Hclose & Hsubs2 & _).
    { set_solver. }
    exists w2. split; [done|].
    assert (Hl : listeners_for uid w2 = (listeners_for uid w ∪ {[ws]}) ∖ {[ws]}).
    { unfold listeners_for at 1. rewrite Hsubs2. by rewrite lookup_insert_eq. }
    rewrite Hl. generalize (listeners_for uid w). intros X.
    split; [set_solver|]. apply set_eq. set_solver.
Qed.

Lemma unsubscribe_removes_or_raises_witness :
  ∃ w', websocket_endpoint_close 1%nat 7 two_listeners = (Ok tt, w')
        ∧ listeners_for 7 w' = {[1%nat; 2%nat]} ∖ {[1%nat]}.
Proof.
  destruct (unsubscribe_removes_or_raises 1%nat 7 two_listeners) as (H & _ & _).
  destruct (H {[1%nat; 2%nat]}) as (w' & Hrun & Hset & _).
  - vm_compute. reflexivity.
  - set_solver.
  - exists w'. split; assumption.
Defined.

(** C9 as stated fails: removing a listener that is not registered, or one
    of an agent without an entry, raises [KeyError]. *)
Lemma unsubscribe_absent_raises :
  websocket_endpoint_close 1%nat 7 empty_world = (Raise KeyError, empty_world)
  ∧ websocket_endpoint_close 3%nat 7 two_listeners = (Raise KeyError, two_listeners).
Proof. split; reflexivity. Qed.

(** ** Steps of the create handler *)

Lemma add_commit_refresh_ok item w :
  commit_succeeds w →
  add_commit_refresh item w
  = (Ok (db_item_of (next_id w) item),
     insert_row (db_item_of (next_id w) item) (set_faults (tail (faults w)) w)).
Proof.
  unfold commit_succeeds, add_commit_refresh, commit, get_world, mbind, M_bind,
    mret, M_ret.
  destruct w as [t n fs subs cl tr]; simpl.
  destruct fs as [|[] fs]; simpl; [done|congruence|done].
Qed.

Lemma add_commit_refresh_fails item w :
  head (faults w) = Some true →
  add_commit_refresh item w = (Raise OperationalError, set_faults (tail (faults w)) w).
Proof.
  unfold add_commit_refresh, commit, get_world, mbind, M_bind.
  destruct (faults w) as [|[] fs] eqn:Hf; simpl; [done|done|congruence].
Qed.

Lemma send_no_listeners uid data w :
  listeners_for uid w = ∅ →
  send_data_to_subscribers uid data w = (Ok tt, snd (log (EvPublish uid data) w)).
Proof.
  unfold listeners_for, send_data_to_subscribers, send_data_to_subscribers_sched,
    log, get_world, mbind, M_bind, mret, M_ret.
  simpl. destruct (subscriptions w !! uid) as [s|] eqn:Hs; simpl; [|done].
  intros ->. rewrite elements_empty. simpl.
  unfold get_world, mbind, M_bind. simpl. rewrite Hs. simpl.
  by rewrite decide_True.
Qed.

(** ** Validation of a body *)

Lemma validate_body_refused body raw msg :
  raw ∈ body → validate_item raw = Raise (RequestValidationError msg) →
  ∃ msg', validate_body body = Raise (RequestValidationError msg').
Proof.
  intros Hin Hraw. induction Hin as [raw body|raw raw' body Hin IH]; simpl.
  - rewrite Hraw. eauto.
  - destruct (IH Hraw) as [msg' ->].
    destruct (validate_item raw') as [item|[]]; eauto.
Qed.

Lemma post_not_run body e w :
  validate_body body = Raise e → post_processed_agent_data body w = (Raise e, w).
Proof. intros Hv. unfold post_processed_agent_data. by rewrite Hv. Qed.

Lemma validate_item_not_a_date raw :
  in_timestamp raw = TsStr "not-a-date" →
  validate_item raw = Raise (RequestValidationError "timestamp").
Proof. intros Hts. unfold validate_item. by rewrite Hts. Qed.

(** ** The dispatcher on a model instance *)

Lemma elements_nil_empty (s : gset WebSocket) : elements s = [] → s = ∅.
Proof. intros H. apply leibniz_equiv. by apply elements_empty_inv; rewrite H. Qed.

Lemma send_model uid item w :
  send_data_to_subscribers uid (PyModel item) w
  = (if decide (listeners_for uid w = ∅) then Ok tt else Raise TypeError,
     snd (log (EvPublish uid (PyModel item)) w)).
Proof.
  destruct (decide (listeners_for uid w = ∅)) as [He|Hne].
  { by apply send_no_listeners. }
  unfold listeners_for, send_data_to_subscribers, send_data_to_subscribers_sched,
    log, get_world, mbind, M_bind, mret, M_ret in *.
  simpl. destruct (subscriptions w !! uid) as [s|] eqn:Hs; simpl in *; [|done].
  destruct (elements s) as [|ws l] eqn:Hel.
  { by apply elements_nil_empty in Hel. }
  simpl. unfold get_world, mbind, M_bind. simpl. rewrite Hs. simpl.
  by rewrite decide_True.
Qed.

(** One turn of the loop of the create handler. *)
Lemma create_cons item data w :
  create_processed_agent_data (item :: data) w
  = if decide (commit_succeeds w) then
      let w1 := insert_row (db_item_of (next_id w) item) (set_faults (tail (faults w)) w) in
      let w2 := snd (log (EvPublish (Models.user_id (agent_data item)) (PyModel item)) w1) in
      if decide (listeners_for (Models.user_id (agent_data item)) w = ∅)
      then create_processed_agent_data data w2
      else (Raise TypeError, w2)
    else (Raise OperationalError, set_faults (tail (faults w)) w).
Proof.
  simpl. destruct (decide (commit_succeeds w)) as [Hok|Hfail].
  - rewrite (bind_ok _ _ _ _ _ (add_commit_refresh_ok item w Hok)).
    set (w1 := insert_row _ _).
    pose proof (send_model (Models.user_id (agent_data item)) item w1) as Hsend.
    change (listeners_for (Models.user_id (agent_data item)) w1)
      with (listeners_for (Models.user_id (agent_data item)) w) in Hsend.
    simpl. destruct (decide (listeners_for _ w = ∅)).
    + by rewrite (bind_ok _ _ _ _ _ Hsend).
    + by rewrite (bind_raise _ _ _ _ _ Hsend).
  - rewrite (bind_raise _ _ _ OperationalError (set_faults (tail (faults w)) w)); [done|].
    apply add_commit_refresh_fails. unfold commit_succeeds in Hfail.
    destruct (head (faults w)) as [[]|]; [done|by destruct Hfail..].
Qed.

Lemma store_rows_snoc rows r t :
  store_rows (rows ++ [r]) t = <[Tables.id r := r]> (store_rows rows t).
Proof. unfold store_rows. by rewrite foldl_app. Qed.

Lemma rows_from_length pk data : length (rows_from pk data) = length data.
Proof. revert pk. induction data as [|item data IH]; intros pk; simpl; by rewrite ?IH. Qed.

Lemma rows_from_lookup data : ∀ pk (i : nat) item,
  data !! i = Some item →
  rows_from pk data !! i = Some (db_item_of (pk + Z.of_nat i) item).
Proof.
  induction data as [|item' data IH]; intros pk i item Hi; [done|].
  destruct i as [|i]; simpl in *.
  - injection Hi as ->. by rewrite Z.add_0_r.
  - rewrite (IH (pk + 1) i item Hi). do 2 f_equal. lia.
Qed.

Lemma rows_from_ids_bound data : ∀ pk k,
  k ∈ Tables.id <$> rows_from pk data → pk ≤ k < pk + Z.of_nat (length data).
Proof.
  induction data as [|item data IH]; intros pk k; simpl.
  - by intros ?%elem_of_nil.
  - intros [->|Hin]%elem_of_cons; [lia|]. apply IH in Hin. lia.
Qed.

Lemma rows_from_ids_NoDup data pk : NoDup (Tables.id <$> rows_from pk data).
Proof.
  revert pk. induction data as [|item data IH]; intros pk; simpl; constructor.
  - intros Hin%rows_from_ids_bound. lia.
  - apply IH.
Qed.

Lemma store_rows_lookup_lt data : ∀ pk t k,
  k < pk → store_rows (rows_from pk data) t !! k = t !! k.
Proof.
  induction data as [|item data IH]; intros pk t k Hk; [done|].
  simpl. change (store_rows (db_item_of pk item :: rows_from (pk + 1) data) t)
    with (store_rows (rows_from (pk + 1) data) (<[pk := db_item_of pk item]> t)).
  rewrite IH by lia. apply lookup_insert_ne. lia.
Qed.

Lemma store_rows_lookup data : ∀ pk t (i : nat) item,
  data !! i = Some item →
  store_rows (rows_from pk data) t !! (pk + Z.of_nat i)
  = Some (db_item_of (pk + Z.of_nat i) item).
Proof.
  induction data as [|item' data IH]; intros pk t i item Hi; [done|].
  change (store_rows (rows_from pk (item' :: data)) t)
    with (store_rows (rows_from (pk + 1) data) (<[pk := db_item_of pk item']> t)).
  destruct i as [|i]; simpl in Hi.
  - injection Hi as ->. rewrite Z.add_0_r.
    rewrite store_rows_lookup_lt by lia. apply lookup_insert_eq.
  - replace (pk + Z.of_nat (S i)) with (pk + 1 + Z.of_nat i) by lia.
    by apply IH.
Qed.

Lemma store_rows_lookup_inv data : ∀ pk t k r,
  store_rows (rows_from pk data) t !! k = Some r →
  t !! k = Some r ∨ (r ∈ rows_from pk data ∧ Tables.id r = k).
Proof.
  induction data as [|item data IH]; intros pk t k r; [by left|].
  change (store_rows (rows_from pk (item :: data)) t)
    with (store_rows (rows_from (pk + 1) data) (<[pk := db_item_of pk item]> t)).
  intros [Hl|[Hin Hid]]%IH.
  - destruct (decide (pk = k)) as [->|Hne].
    + rewrite lookup_insert_eq in Hl. injection Hl as <-.
      right. split; [by left|done].
    + rewrite lookup_insert_ne in Hl by done. by left.
  - right. split; [by right|done].
Qed.

Lemma created_ids_app tr1 tr2 :
  created_ids (tr1 ++ tr2) = created_ids tr1 ++ created_ids tr2.
Proof. apply omap_app. Qed.

Lemma created_ids_pipeline rows : created_ids (pipeline_events rows) = Tables.id <$> rows.
Proof. induction rows as [|r rows IH]; [done|]. simpl. f_equal. apply IH. Qed.

Lemma delivered_app ws tr1 tr2 :
  delivered ws (tr1 ++ tr2) = delivered ws tr1 ++ delivered ws tr2.
Proof. apply omap_app. Qed.

Lemma delivered_pipeline ws rows : delivered ws (pipeline_events rows) = [].
Proof. induction rows as [|r rows IH]; [done|]. simpl. apply IH. Qed.

(** What a run of the create handler does, whatever its outcome: it commits
    the rows of a prefix of the batch, in order, under consecutive keys, and
    leaves in the trace the commit and the publish call of each of them. *)
Lemma create_spec data : ∀ w r w',
  create_processed_agent_data data w = (r, w') →
  ∃ n : nat,
    (n ≤ length data)%nat
    ∧ (r = Ok tt → n = length data)
    ∧ table w' = store_rows (rows_from (next_id w) (take n data)) (table w)
    ∧ next_id w' = next_id w + Z.of_nat n
    ∧ trace w' = trace w ++ pipeline_events (rows_from (next_id w) (take n data))
    ∧ subscriptions w' = subscriptions w
    ∧ closed w' = closed w.
Proof.
  induction data as [|item data IH]; intros w r w' Hrun.
  - injection Hrun as <- <-. exists 0%nat. simpl.
    rewrite Z.add_0_r, app_nil_r. by repeat split.
  - rewrite create_cons in Hrun.
    destruct (decide (commit_succeeds w)) as [Hok|Hfail].
    + simpl in Hrun.
      destruct (decide (listeners_for (Models.user_id (agent_data item)) w = ∅)).
      * apply IH in Hrun as (n & Hn & Hall & Htab & Hnext & Htr & Hsubs & Hcl).
        simpl in *. exists (S n). simpl.
        rewrite processed_data_of_db_item.
        repeat split; try done; try lia.
        -- intros Hr. by rewrite Hall.
        -- rewrite Htr. by rewrite <- !app_assoc.
      * injection Hrun as <- <-. exists 1%nat. simpl. rewrite ?take_0. simpl.
        rewrite processed_data_of_db_item.
        repeat split; try done; try lia. by rewrite <- app_assoc.
    + injection Hrun as <- <-. exists 0%nat. simpl.
      rewrite Z.add_0_r, app_nil_r. repeat split; try done; lia.
Qed.

Lemma committed_rows_app tr1 tr2 :
  committed_rows (tr1 ++ tr2) = committed_rows tr1 ++ committed_rows tr2.
Proof. apply omap_app. Qed.

Lemma committed_rows_pipeline rows : committed_rows (pipeline_events rows) = rows.
Proof. induction rows as [|r rows IH]; [done|]. simpl. f_equal. apply IH. Qed.

Lemma create_app pre post w :
  create_processed_agent_data (pre ++ post) w
  = (create_processed_agent_data pre ;; create_processed_agent_data post) w.
Proof.
  revert w. induction pre as [|item pre IH]; intros w; [done|].
  simpl. rewrite !bind_assoc.
  destruct (add_commit_refresh item w) as [[row|e] w1] eqn:Hadd.
  - rewrite !(bind_ok _ _ _ _ _ Hadd), bind_assoc.
    destruct (send_data_to_subscribers (Models.user_id (agent_data item)) (PyModel item) w1)
      as [[u|e] w2] eqn:Hsend.
    + rewrite !(bind_ok _ _ _ _ _ Hsend). apply IH.
    + by rewrite !(bind_raise _ _ _ _ _ Hsend).
  - by rewrite !(bind_raise _ _ _ _ _ Hadd).
Qed.

Lemma pipeline_events_split rows : ∀ pre uid d post,
  pipeline_events rows = pre ++ EvPublish uid d :: post →
  ∃ rows1 row rows2,
    rows = rows1 ++ row :: rows2
    ∧ pre = pipeline_events rows1 ++ [EvCommit row]
    ∧ uid = Tables.user_id row
    ∧ d = PyModel (processed_data_of row)
    ∧ post = pipeline_events rows2.
Proof.
  induction rows as [|r rows IH]; intros pre uid d post Heq.
  - by destruct pre.
  - change (pipeline_events (r :: rows))
      with (EvCommit r :: EvPublish (Tables.user_id r) (PyModel (processed_data_of r))
              :: pipeline_events rows) in Heq.
    destruct pre as [|e1 [|e2 pre]]; simpl in Heq.
    + discriminate.
    + injection Heq as <- <- <- <-. by exists [], r, rows.
    + injection Heq as <- <- Heq.
      apply IH in Heq as (rows1 & row & rows2 & -> & -> & -> & -> & ->).
      by exists (r :: rows1), row, rows2.
Qed.

(** ** Order of commit and publish *)

(** C3.  In every run of the create handler each publish call is
    immediately preceded, in the trace, by the commit of the row of the
    same item, and the table as it stands at that point holds that row under
    its id.  Seen from the loop: once the items before it are done, an item
    whose commit fails is never published, and the publish call of an item
    whose commit succeeds starts in a world where reading the assigned id
    answers with the item. *)
Theorem publish_after_commit :
  (∀ data w r w', create_processed_agent_data data w = (r, w') →
     ∃ evs, trace w' = trace w ++ evs
       ∧ ∀ pre uid d post, evs = pre ++ EvPublish uid d :: post →
           ∃ pre' row,
             pre = pre' ++ [EvCommit row]
             ∧ uid = Tables.user_id row
             ∧ d = PyModel (processed_data_of row)
             ∧ store_rows (committed_rows pre) (table w) !! Tables.id row = Some row)
  ∧ (∀ pre item post w w1,
       create_processed_agent_data pre w = (Ok tt, w1) →
       (head (faults w1) = Some true →
          ∃ w2, create_processed_agent_data (pre ++ item :: post) w
                = (Raise OperationalError, w2)
                ∧ trace w2 = trace w1)
       ∧ (commit_succeeds w1 →
          ∃ w2, add_commit_refresh item w1 = (Ok (db_item_of (next_id w1) item), w2)
                ∧ read_processed_agent_data (next_id w1) w2 = (Ok item, w2)
                ∧ create_processed_agent_data (pre ++ item :: post) w
                  = (send_data_to_subscribers (Models.user_id (agent_data item)) (PyModel item);;
                     create_processed_agent_data post) w2)).
Proof.
  split.
  - intros data w r w' Hrun.
    apply create_spec in Hrun as (n & _ & _ & _ & _ & Htr & _).
    eexists. split; [exact Htr|].
    intros pre uid d post Heq.
    apply pipeline_events_split in Heq as (rows1 & row & rows2 & _ & -> & -> & -> & _).
    exists (pipeline_events rows1), row. repeat split.
    rewrite committed_rows_app, committed_rows_pipeline. simpl.
    rewrite store_rows_snoc. apply lookup_insert_eq.
  - intros pre item post w w1 Hpre. split.
    + intros Hfail. eexists. rewrite create_app, (bind_ok _ _ _ _ _ Hpre).
      simpl. rewrite (bind_raise _ _ _ _ _ (add_commit_refresh_fails item w1 Hfail)).
      by split.
    + intros Hok. eexists. split; [by apply add_commit_refresh_ok|]. split.
      * unfold read_processed_agent_data, query_first, mbind, M_bind. simpl.
        by rewrite lookup_insert_eq, processed_data_of_db_item.
      * rewrite create_app, (bind_ok _ _ _ _ _ Hpre). simpl.
        by rewrite (bind_ok _ _ _ _ _ (add_commit_refresh_ok item w1 Hok)).
Qed.

Lemma publish_after_commit_witness :
  ∃ w2, add_commit_refresh wet_item one_record = (Ok (db_item_of 2 wet_item), w2)
        ∧ read_processed_agent_data 2 w2 = (Ok wet_item, w2).
Proof.
  destruct publish_after_commit as [_ H].
  destruct (H [sample_item] wet_item [] empty_world one_record) as [_ H2].
  - reflexivity.
  - destruct H2 as (w2 & Hadd & Hread & _).
    + unfold commit_succeeds. simpl. discriminate.
    + exists w2. split; [exact Hadd|exact Hread].
Defined.

(** ** What the listeners receive from a create *)

(** C1 (code defect in the publish call).  With a working commit and at
    least one listener on the agent of the first item, the create handler
    commits the row and then fails with [TypeError]: [json.dumps] is handed
    the request item, a model instance and not the refreshed row with its
    id, and cannot encode it.  No frame is delivered to any listener, and
    the rest of the batch is not processed. *)
Theorem create_with_listener_raises (item : ProcessedAgentData)
    (data : list ProcessedAgentData) (w : World) :
  commit_succeeds w →
  listeners_for (Models.user_id (agent_data item)) w ≠ ∅ →
  ∃ w',
    create_processed_agent_data (item :: data) w = (Raise TypeError, w')
    ∧ json_dumps (PyModel item) w = (Raise TypeError, w)
    ∧ table w' !! next_id w = Some (db_item_of (next_id w) item)
    ∧ trace w' = trace w ++ [EvCommit (db_item_of (next_id w) item);
                             EvPublish (Models.user_id (agent_data item)) (PyModel item)]
    ∧ ∀ ws, delivered ws (trace w') = delivered ws (trace w).
Proof.
  intros Hok Hne. rewrite create_cons.
  rewrite decide_True by done. simpl. rewrite decide_False by done.
  eexists. split; [reflexivity|]. simpl.
  rewrite lookup_insert_eq. repeat split.
  - by rewrite <- app_assoc.
  - intros ws. rewrite <- app_assoc, delivered_app. simpl. by rewrite app_nil_r.
Qed.

Lemma create_with_listener_raises_witness :
  ∃ w', create_processed_agent_data [sample_item] two_listeners = (Raise TypeError, w')
        ∧ ∀ ws, delivered ws (trace w') = delivered ws (trace two_listeners).
Proof.
  destruct (create_with_listener_raises sample_item [] two_listeners)
    as (w' & Hrun & _ & _ & _ & Hnone).
  - unfold commit_succeeds. simpl. discriminate.
  - vm_compute. discriminate.
  - exists w'. split; [exact Hrun|exact Hnone].
Defined.

(** No run of the create handler delivers a frame to anybody. *)
Lemma create_never_delivers data w r w' ws :
  create_processed_agent_data data w = (r, w') →
  delivered ws (trace w') = delivered ws (trace w).
Proof.
  intros (n & _ & _ & _ & _ & Htr & _)%create_spec.
  by rewrite Htr, delivered_app, delivered_pipeline, app_nil_r.
Qed.

(** ** A valid timestamp *)

(** C4 (code defect, the one of C1).  A body holding an item whose
    timestamp is the string "not-a-date" is answered with a validation
    error and the world is left as it was: no row, no publish, no frame.
    An item whose timestamp is "2024-01-01T12:00:00" validates to the model
    with that instant.  Posted alone with a working commit, it is stored and
    readable; the request succeeds when its agent has no listener, and
    fails with [TypeError] after the commit when it has one. *)
Theorem valid_timestamp_post :
  (∀ body raw w, raw ∈ body → in_timestamp raw = TsStr "not-a-date" →
     ∃ msg, post_processed_agent_data body w = (Raise (RequestValidationError msg), w))
  ∧ (∀ raw w, in_timestamp raw = TsStr "2024-01-01T12:00:00" →
     let item :=
       {| Models.road_state := in_road_state raw;
          agent_data :=
            {| Models.user_id := in_user_id raw;
               accelerometer := in_accelerometer raw;
               gps := in_gps raw;
               Models.timestamp := noon |} |} in
     validate_body [raw] = Ok [item]
     ∧ (commit_succeeds w →
        ∃ w', post_processed_agent_data [raw] w
              = (if decide (listeners_for (in_user_id raw) w = ∅)
                 then Ok tt else Raise TypeError, w')
              ∧ table w' !! next_id w = Some (db_item_of (next_id w) item)
              ∧ read_processed_agent_data (next_id w) w' = (Ok item, w')
              ∧ ∀ ws, delivered ws (trace w') = delivered ws (trace w))).
Proof.
  split.
  - intros body raw w Hin Hts.
    destruct (validate_body_refused body raw "timestamp" Hin
                (validate_item_not_a_date raw Hts)) as [msg Hv].
    exists msg. by apply post_not_run.
  - intros raw w Hts item.
    assert (Hv : validate_body [raw] = Ok [item]).
    { simpl. unfold validate_item. by rewrite Hts. }
    split; [done|]. intros Hok.
    unfold post_processed_agent_data. rewrite Hv, create_cons.
    rewrite decide_True by done. simpl.
    eexists. split.
    { destruct (decide (listeners_for (in_user_id raw) w = ∅)); reflexivity. }
    simpl. rewrite lookup_insert_eq. split; [done|]. split.
    + unfold read_processed_agent_data, query_first, mbind, M_bind. simpl.
      by rewrite lookup_insert_eq, processed_data_of_db_item.
    + intros ws. rewrite <- app_assoc, delivered_app. simpl. by rewrite app_nil_r.
Qed.

Lemma valid_timestamp_post_witness :
  (∃ msg, post_processed_agent_data [noon_raw; bad_raw] empty_world
          = (Raise (RequestValidationError msg), empty_world))
  ∧ (∃ w', post_processed_agent_data [noon_raw] two_listeners = (Raise TypeError, w')
           ∧ table w' !! 1 = Some (db_item_of 1 noon_item)).
Proof.
  destruct valid_timestamp_post as [Hbad Hgood]. split.
  - apply (Hbad [noon_raw; bad_raw] bad_raw empty_world).
    + set_solver.
    + reflexivity.
  - destruct (Hgood noon_raw two_listeners) as (_ & H); [reflexivity|].
    destruct H as (w' & Hrun & Htab & _).
    + unfold commit_succeeds. simpl. discriminate.
    + exists w'. split; [|exact Htab].
      rewrite Hrun. rewrite decide_False; [reflexivity|].
      vm_compute. discriminate.
Defined.

(** ** Batches *)

Lemma commits_work_head n w : commits_work (S n) w → commit_succeeds w.
Proof.
  unfold commits_work, commit_succeeds. destruct (faults w) as [|b fs]; [done|].
  intros H. simpl. rewrite (H b) by (simpl; by left). done.
Qed.

Lemma commits_work_tail n w w' :
  faults w' = tail (faults w) → commits_work (S n) w → commits_work n w'.
Proof.
  unfold commits_work. intros -> H b Hb. apply H.
  destruct (faults w) as [|b' fs]; simpl in *.
  - by rewrite take_nil in Hb.
  - by right.
Qed.

Lemma create_ok_without_listeners data : ∀ w,
  (∀ item, item ∈ data → listeners_for (Models.user_id (agent_data item)) w = ∅) →
  commits_work (length data) w →
  fst (create_processed_agent_data data w) = Ok tt.
Proof.
  induction data as [|item data IH]; intros w Hnone Hwork; [done|].
  rewrite create_cons.
  rewrite decide_True by (by eapply commits_work_head).
  simpl. rewrite decide_True by (apply Hnone; by left).
  apply IH.
  - intros item' Hin. apply (Hnone item'). by right.
  - by apply (commits_work_tail _ w).
Qed.

Lemma create_ok_faults data : ∀ w w',
  create_processed_agent_data data w = (Ok tt, w') →
  faults w' = drop (length data) (faults w).
Proof.
  induction data as [|item data IH]; intros w w' Hrun.
  - by injection Hrun as <-.
  - rewrite create_cons in Hrun.
    destruct (decide (commit_succeeds w)); [|done]. simpl in Hrun.
    destruct (decide (listeners_for _ w = ∅)); [|done].
    apply IH in Hrun. rewrite Hrun. simpl.
    destruct (faults w) as [|b fs]; simpl; [by destruct (length data)|done].
Qed.

(** C6, as the code has it.  The create handler commits the rows of the
    batch one after the other in the order received, under consecutive
    keys, and when it stops early the rows committed before are all there.
    With no listener on the agents concerned: when the engine commits, the
    whole batch is stored in order; when the engine fails the commit of an
    item after committing those before it, the error is raised to the
    caller and the items before it stay stored and readable.  Validation is
    not per item: a body with one refused item is answered with a
    validation error before the handler runs, with the world as it was. *)
Theorem batch_sequential_no_rollback :
  (∀ data w r w', create_processed_agent_data data w = (r, w') →
     ∃ n : nat,
       (n ≤ length data)%nat
       ∧ (r = Ok tt → n = length data)
       ∧ committed_rows (trace w')
         = committed_rows (trace w) ++ rows_from (next_id w) (take n data)
       ∧ table w' = store_rows (rows_from (next_id w) (take n data)) (table w))
  ∧ (∀ data w,
       (∀ it, it ∈ data → listeners_for (Models.user_id (agent_data it)) w = ∅) →
       commits_work (length data) w →
       ∃ w',
         create_processed_agent_data data w = (Ok tt, w')
         ∧ committed_rows (trace w')
           = committed_rows (trace w) ++ rows_from (next_id w) data
         ∧ table w' = store_rows (rows_from (next_id w) data) (table w))
  ∧ (∀ pre item post w,
       (∀ it, it ∈ pre → listeners_for (Models.user_id (agent_data it)) w = ∅) →
       commits_work (length pre) w →
       faults w !! length pre = Some true →
       ∃ w2,
         create_processed_agent_data (pre ++ item :: post) w = (Raise OperationalError, w2)
         ∧ committed_rows (trace w2)
           = committed_rows (trace w) ++ rows_from (next_id w) pre
         ∧ table w2 = store_rows (rows_from (next_id w) pre) (table w)
         ∧ ∀ (i : nat) it, pre !! i = Some it →
             read_processed_agent_data (next_id w + Z.of_nat i) w2 = (Ok it, w2))
  ∧ (∀ body raw msg w,
       raw ∈ body → validate_item raw = Raise (RequestValidationError msg) →
       ∃ msg', post_processed_agent_data body w
               = (Raise (RequestValidationError msg'), w)).
Proof.
  assert (Hgood : ∀ data w,
    (∀ it, it ∈ data → listeners_for (Models.user_id (agent_data it)) w = ∅) →
    commits_work (length data) w →
    ∃ w', create_processed_agent_data data w = (Ok tt, w')
          ∧ committed_rows (trace w')
            = committed_rows (trace w) ++ rows_from (next_id w) data
          ∧ table w' = store_rows (rows_from (next_id w) data) (table w)).
  { intros data w Hnone Hwork.
    pose proof (create_ok_without_listeners data w Hnone Hwork) as Hok.
    destruct (create_processed_agent_data data w) as [r w'] eqn:Hrun.
    simpl in Hok. subst r. exists w'. split; [done|].
    apply create_spec in Hrun as (n & _ & Hall & Htab & _ & Htr & _).
    rewrite (Hall eq_refl), firstn_all in *. split; [|done].
    by rewrite Htr, committed_rows_app, committed_rows_pipeline. }
  split; [|split; [exact Hgood|split]].
  - intros data w r w' Hrun.
    apply create_spec in Hrun as (n & Hn & Hall & Htab & _ & Htr & _).
    exists n. repeat split; try done.
    by rewrite Htr, committed_rows_app, committed_rows_pipeline.
  - intros pre item post w Hnone Hwork Hfail.
    destruct (Hgood pre w Hnone Hwork) as (w1 & Hpre & Hrows & Htab).
    assert (Hfail1 : head (faults w1) = Some true).
    { rewrite (create_ok_faults pre w w1 Hpre), head_lookup, lookup_drop.
      by rewrite Nat.add_0_r. }
    eexists. rewrite create_app, (bind_ok _ _ _ _ _ Hpre). simpl.
    rewrite (bind_raise _ _ _ _ _ (add_commit_refresh_fails item w1 Hfail1)).
    split; [reflexivity|]. split; [done|]. split; [done|].
    intros i it Hi.
    unfold read_processed_agent_data, query_first, mbind, M_bind. simpl.
    rewrite Htab, (store_rows_lookup pre _ _ i it Hi).
    by rewrite processed_data_of_db_item.
  - intros body raw msg w Hin Hraw.
    destruct (validate_body_refused body raw msg Hin Hraw) as [msg' Hv].
    exists msg'. by apply post_not_run.
Qed.

Lemma batch_sequential_no_rollback_witness :
  ∃ w2, create_processed_agent_data ([sample_item; wet_item] ++ sample_item :: [wet_item])
          third_commit_fails = (Raise OperationalError, w2)
        ∧ committed_rows (trace w2)
          = committed_rows (trace third_commit_fails)
            ++ rows_from (next_id third_commit_fails) [sample_item; wet_item]
        ∧ read_processed_agent_data (1 + Z.of_nat 1) w2 = (Ok wet_item, w2).
Proof.
  destruct batch_sequential_no_rollback as (_ & _ & H & _).
  destruct (H [sample_item; wet_item] sample_item [wet_item] third_commit_fails)
    as (w2 & Hrun & Hrows & _ & Hread).
  - intros it Hin. reflexivity.
  - intros b Hb. vm_compute in Hb. set_solver.
  - reflexivity.
  - exists w2. split; [exact Hrun|]. split; [exact Hrows|].
    apply (Hread 1%nat wet_item). reflexivity.
Defined.

(** C6 as stated fails for validation: the first item of this body is
    valid, and posted alone it is stored; posted together with an item whose
    timestamp is refused, the body is refused as a whole and the valid item
    is not stored. *)
Lemma valid_item_dropped_with_refused_one :
  validate_item noon_raw = Ok noon_item
  ∧ post_processed_agent_data [noon_raw] empty_world
    = (Ok tt, snd (post_processed_agent_data [noon_raw] empty_world))
  ∧ table (snd (post_processed_agent_data [noon_raw] empty_world)) !! 1
    = Some (db_item_of 1 noon_item)
  ∧ post_processed_agent_data [noon_raw; bad_raw] empty_world
    = (Raise (RequestValidationError "timestamp"), empty_world)
  ∧ table empty_world = ∅.
Proof. repeat split; reflexivity. Qed.

(** ** Create then read, and the uniqueness of ids *)

Lemma sound_frame w w' :
  table w' = table w → next_id w' = next_id w → trace w' = trace w →
  sound w → sound w'.
Proof. unfold sound, consistent. by intros -> -> ->. Qed.

Lemma fresh_sound w : fresh w → sound w.
Proof.
  intros [Ht Htr]. unfold sound, consistent. rewrite Ht, Htr. simpl.
  split; [split|constructor].
  - intros k r. by rewrite lookup_empty.
  - intros k. by intros ?%elem_of_nil.
Qed.

Lemma create_sound data w r w' :
  create_processed_agent_data data w = (r, w') → sound w → sound w'.
Proof.
  intros (n & Hn & _ & Htab & Hnext & Htr & _)%create_spec [[Hrows Hids] Hnd].
  assert (Hlen : length (take n data) = n) by (rewrite length_take; lia).
  unfold sound, consistent.
  rewrite Htab, Hnext, Htr, created_ids_app, created_ids_pipeline.
  split; [split|].
  - intros k row [Hold|[Hin Hid]]%store_rows_lookup_inv.
    + apply Hrows in Hold. lia.
    + assert (Hk : k ∈ Tables.id <$> rows_from (next_id w) (take n data)).
      { rewrite <- Hid. by apply list_elem_of_fmap_2. }
      apply rows_from_ids_bound in Hk. lia.
  - intros k [Hold|Hnew]%elem_of_app.
    + apply Hids in Hold. lia.
    + apply rows_from_ids_bound in Hnew. lia.
  - apply NoDup_app. split; [done|]. split; [|apply rows_from_ids_NoDup].
    intros k Hold%Hids Hnew%rows_from_ids_bound. lia.
Qed.

Lemma update_sound pk data w :
  sound w → sound (snd (update_processed_agent_data pk data w)).
Proof.
  intros Hs. unfold update_processed_agent_data, query_first, commit, mbind, M_bind.
  destruct (table w !! pk) as [row|] eqn:Hrow; simpl; [|done].
  destruct Hs as [[Hrows Hids] Hnd].
  destruct (Hrows pk row Hrow) as [Hid Hlt].
  destruct (faults w) as [|[] fs]; simpl; try done.
  all: split; [split|done]; simpl; [|done].
  all: intros k r; rewrite Hid; destruct (decide (pk = k)) as [<-|Hne];
    [rewrite lookup_insert_eq; by intros [= <-]
    |rewrite lookup_insert_ne by done; apply Hrows].
Qed.

Lemma delete_sound pk w :
  sound w → sound (snd (delete_processed_agent_data pk w)).
Proof.
  intros Hs. unfold delete_processed_agent_data, query_first, commit, mbind, M_bind.
  destruct (table w !! pk) as [row|] eqn:Hrow; simpl; [|done].
  destruct Hs as [[Hrows Hids] Hnd].
  destruct (faults w) as [|[] fs]; simpl; try done.
  all: split; [split|done]; simpl; [|done].
  all: intros k r [_ Hl]%lookup_delete_Some; by apply Hrows.
Qed.

Lemma serve_sound r w : sound w → sound (serve r w).
Proof.
  intros Hs. destruct r as [body|pk| |pk data|pk|ws uid|ws uid]; simpl.
  - unfold post_processed_agent_data.
    destruct (validate_body body) as [data|[]]; try done.
    destruct (create_processed_agent_data data w) as [r w'] eqn:Hrun.
    by eapply create_sound.
  - unfold read_processed_agent_data, query_first, mbind, M_bind.
    by destruct (table w !! pk).
  - done.
  - by apply update_sound.
  - by apply delete_sound.
  - destruct (websocket_endpoint_open_spec ws uid w) as (w' & -> & _ & Ht & Hn & _ & _ & Htr).
    by apply (sound_frame w).
  - unfold websocket_endpoint_close, get_world, set_subscriptions, mbind, M_bind.
    destruct (subscriptions w !! uid) as [s|]; [|done].
    by destruct (decide (ws ∈ s)).
Qed.

Lemma serve_all_sound rs : ∀ w, sound w → sound (serve_all rs w).
Proof.
  induction rs as [|r rs IH]; intros w Hs; [done|].
  apply IH. by apply serve_sound.
Qed.

(** C7.  After a run of the create handler, reading the id the store
    assigned to a committed item answers with that item, equal in every
    field, the nested accelerometer and gps values included; when the run
    succeeds this covers the whole batch.  Over any history of requests on
    a fresh database the ids given to created records are pairwise
    distinct. *)
Theorem create_then_read :
  (∀ data w r w', create_processed_agent_data data w = (r, w') →
     ∃ n : nat,
       (r = Ok tt → n = length data)
       ∧ created_ids (trace w')
         = created_ids (trace w) ++ (Tables.id <$> rows_from (next_id w) (take n data))
       ∧ ∀ (i : nat) item, (i < n)%nat → data !! i = Some item →
           rows_from (next_id w) (take n data) !! i
           = Some (db_item_of (next_id w + Z.of_nat i) item)
           ∧ read_processed_agent_data (next_id w + Z.of_nat i) w' = (Ok item, w'))
  ∧ (∀ rs w, fresh w → NoDup (created_ids (trace (serve_all rs w)))).
Proof.
  split.
  - intros data w r w' Hrun.
    apply create_spec in Hrun as (n & Hn & Hall & Htab & _ & Htr & _).
    exists n. split; [done|]. split.
    { by rewrite Htr, created_ids_app, created_ids_pipeline. }
    intros i item Hi Hitem.
    assert (Htake : take n data !! i = Some item) by (by rewrite lookup_take_lt).
    split; [by apply rows_from_lookup|].
    unfold read_processed_agent_data, query_first, mbind, M_bind. simpl.
    rewrite Htab, (store_rows_lookup _ _ _ i item Htake).
    by rewrite processed_data_of_db_item.
  - intros rs w Hfresh. by apply serve_all_sound, fresh_sound.
Qed.

Lemma create_then_read_witness :
  read_processed_agent_data (1 + Z.of_nat 0) one_record = (Ok sample_item, one_record)
  ∧ NoDup (created_ids (trace (serve_all
      [Post [to_wire sample_item]; Delete 1; Post [to_wire wet_item; to_wire sample_item]]
      empty_world))).
Proof.
  destruct create_then_read as [Hread Hnodup]. split.
  - destruct (Hread [sample_item] empty_world (Ok tt) one_record) as (n & Hn & _ & H).
    + reflexivity.
    + apply (H 0%nat sample_item).
      * rewrite (Hn eq_refl). simpl. lia.
      * reflexivity.
  - apply Hnodup. split; reflexivity.
Defined.

(** The nested record of the round-trip example, written and read back. *)
Example round_trip_nested_shape :
  ∃ w, post_processed_agent_data [to_wire sample_item] empty_world = (Ok tt, w)
       ∧ created_ids (trace w) = [1]
       ∧ read_processed_agent_data 1 w = (Ok sample_item, w).
Proof. eexists. split; [reflexivity|]. split; reflexivity. Qed.

(** After a delete the sequence does not go back: the next record gets a
    new id. *)
Example ids_after_delete :
  created_ids (trace (serve_all
    [Post [to_wire sample_item]; Delete 1; Post [to_wire wet_item]] empty_world))
  = [1; 2].
Proof. reflexivity. Qed.

(** ** The loop of the dispatcher *)

Lemma add_trace_nil w : add_trace [] w = w.
Proof. unfold add_trace. rewrite app_nil_r. apply world_eta. Qed.

Lemma add_trace_add_trace evs1 evs2 w :
  add_trace evs2 (add_trace evs1 w) = add_trace (evs1 ++ evs2) w.
Proof. unfold add_trace. simpl. by rewrite app_assoc. Qed.

Lemma websocket_endpoint_close_fields ws uid w :
  let w' := snd (websocket_endpoint_close ws uid w) in
  table w' = table w ∧ next_id w' = next_id w ∧ faults w' = faults w
  ∧ closed w' = closed w ∧ trace w' = trace w
  ∧ ∀ u, u ≠ uid → subscriptions w' !! u = subscriptions w !! u.
Proof.
  unfold websocket_endpoint_close, get_world, set_subscriptions, mbind, M_bind.
  destruct (subscriptions w !! uid) as [s|]; [|done].
  destruct (decide (ws ∈ s)); [|done].
  simpl. repeat split. intros u Hu. by rewrite lookup_insert_ne.
Qed.

(** A registry operation of another task: what it leaves alone, and what
    it makes of the set of [uid]. *)
Lemma run_op_spec uid op w :
  ∃ w', run_op op w = (Ok tt, w')
        ∧ table w' = table w ∧ next_id w' = next_id w ∧ faults w' = faults w
        ∧ closed w' = closed w ∧ trace w' = trace w
        ∧ listeners_for uid w' = registry_effect uid op (listeners_for uid w).
Proof.
  destruct op as [ws u|ws u]; simpl; unfold other_task.
  - destruct (websocket_endpoint_open_spec ws u w)
      as (w' & Hrun & Hsubs & ? & ? & ? & ? & ?).
    exists w'. rewrite Hrun. repeat split; try done.
    unfold listeners_for at 1. rewrite Hsubs.
    destruct (decide (u = uid)) as [->|Hne].
    + by rewrite lookup_insert_eq.
    + by rewrite lookup_insert_ne.
  - destruct (websocket_endpoint_close_fields ws u w) as (? & ? & ? & ? & ? & Hother).
    eexists. split; [reflexivity|]. repeat split; try done.
    destruct (decide (u = uid)) as [->|Hne].
    + destruct (decide (ws ∈ listeners_for uid w)) as [Hin|Hnin].
      * unfold listeners_for in Hin.
        destruct (subscriptions w !! uid) as [s|] eqn:Hs; [|set_solver].
        destruct (websocket_endpoint_close_present ws uid w s Hs Hin)
          as (w' & Hrun & Hsubs & _).
        rewrite Hrun. unfold listeners_for. simpl.
        by rewrite Hsubs, lookup_insert_eq, Hs.
      * rewrite websocket_endpoint_close_absent by done. simpl.
        apply set_eq. set_solver.
    + unfold listeners_for. by rewrite Hother.
Qed.

Lemma interleave_spec uid ops : ∀ w,
  ∃ b w', interleave uid ops w = (Ok b, w')
          ∧ table w' = table w ∧ next_id w' = next_id w ∧ faults w' = faults w
          ∧ closed w' = closed w ∧ trace w' = trace w
          ∧ listeners_for uid w' = registry_effects uid ops (listeners_for uid w)
          ∧ ((∀ op, op ∈ ops → ineffective uid (listeners_for uid w) op) →
             b = false ∧ listeners_for uid w' = listeners_for uid w).
Proof.
  induction ops as [|op ops IH]; intros w.
  - exists false, w. by repeat split.
  - destruct (run_op_spec uid op w) as (w1 & Hop & Ht1 & Hn1 & Hf1 & Hc1 & Htr1 & Hl1).
    destruct (IH w1) as (b & w' & Hrun & Ht & Hn & Hf & Hc & Htr & Hl & Hquiet).
    exists (negb (bool_decide (listeners_for uid w1 = listeners_for uid w)) || b), w'.
    split.
    { simpl. rewrite (bind_ok get_world _ w w w) by done.
      rewrite (bind_ok _ _ _ _ _ Hop).
      rewrite (bind_ok get_world _ w1 w1 w1) by done.
      by rewrite (bind_ok _ _ _ _ _ Hrun). }
    rewrite Ht, Hn, Hf, Hc, Htr.
    do 5 (split; [done|]). split; [by rewrite Hl, Hl1|].
    intros Hin.
    assert (Hsame : listeners_for uid w1 = listeners_for uid w).
    { rewrite Hl1. specialize (Hin op (list_elem_of_here _ _)).
      destruct op as [ws u|ws u]; simpl in *; case_decide; try done;
        apply set_eq; set_solver. }
    destruct Hquiet as [-> Hq].
    { rewrite Hsame. intros op' Hop'. apply Hin. by right. }
    split; [by rewrite bool_decide_eq_true_2|].
    by rewrite Hq.
Qed.

Lemma iterate_changed uid used pending data sched w :
  size (listeners_for uid w) ≠ used →
  iterate_subscribers uid used pending data sched w
  = (Raise (RuntimeError "Set changed size during iteration"), w).
Proof.
  intros Hne. destruct pending; simpl;
    unfold get_world, mbind, M_bind, listeners_for in *; by rewrite decide_False.
Qed.

Lemma iterate_nil uid used data sched w :
  size (listeners_for uid w) = used →
  iterate_subscribers uid used [] data sched w = (Ok tt, w).
Proof.
  intros He. simpl. unfold get_world, mbind, M_bind, listeners_for in *.
  by rewrite decide_True.
Qed.

Lemma iterate_closed uid used ws pending data payload sched w :
  size (listeners_for uid w) = used → json_encode data = Some payload →
  ws ∈ closed w →
  iterate_subscribers uid used (ws :: pending) data sched w = (Raise ConnectionClosed, w).
Proof.
  intros He Hj Hc. simpl.
  unfold get_world, mbind, M_bind, listeners_for, json_dumps, send_json in *.
  rewrite decide_True by done. rewrite Hj. simpl.
  unfold get_world, mbind, M_bind. by rewrite decide_True.
Qed.

(** One turn of the loop on a listener whose peer is there. *)
Lemma iterate_step uid used ws pending data payload sched w b w1 :
  size (listeners_for uid w) = used → json_encode data = Some payload →
  ws ∉ closed w →
  interleave uid (default [] (head sched)) (add_trace (sends payload [ws]) w) = (Ok b, w1) →
  iterate_subscribers uid used (ws :: pending) data sched w
  = if b && bool_decide (size (listeners_for uid w1) = used)
    then (Raise (NotModelled "set changed during the iteration"), w1)
    else iterate_subscribers uid used pending data (tail sched) w1.
Proof.
  intros He Hj Hc Hrun. unfold listeners_for in He.
  cbn [iterate_subscribers].
  rewrite (bind_ok get_world _ w w w) by done.
  rewrite decide_True by done.
  assert (Hd : json_dumps data w = (Ok payload, w)).
  { unfold json_dumps. by rewrite Hj. }
  rewrite (bind_ok _ _ _ _ _ Hd).
  assert (Hsend : send_json ws payload w = (Ok tt, add_trace (sends payload [ws]) w)).
  { unfold send_json. rewrite (bind_ok get_world _ w w w) by done.
    by rewrite decide_False. }
  rewrite (bind_ok _ _ _ _ _ Hsend).
  rewrite (bind_ok _ _ _ _ _ Hrun).
  rewrite (bind_ok get_world _ w1 w1 w1) by done.
  unfold listeners_for. by destruct (b && _).
Qed.

Lemma iterate_quiet_prefix uid used data payload pre : ∀ rest sched w,
  size (listeners_for uid w) = used → json_encode data = Some payload →
  (∀ x, x ∈ pre → x ∉ closed w) →
  quiet_for (length pre) sched →
  iterate_subscribers uid used (pre ++ rest) data sched w
  = iterate_subscribers uid used rest data (drop (length pre) sched)
      (add_trace (sends payload pre) w).
Proof.
  induction pre as [|ws pre IH]; intros rest sched w He Hj Hopen Hq.
  - simpl. by rewrite drop_0, add_trace_nil.
  - rewrite <- app_comm_cons.
    assert (Hhead : default [] (head sched) = []).
    { specialize (Hq 0%nat). destruct sched; [done|]. apply Hq. simpl. lia. }
    rewrite (iterate_step _ _ _ _ _ payload _ _ false (add_trace (sends payload [ws]) w));
      [|done|done|apply Hopen; by left|by rewrite Hhead].
    simpl andb. cbv iota.
    rewrite (IH rest (tail sched)); try done.
    + rewrite add_trace_add_trace. destruct sched; simpl; [|done]. by rewrite drop_nil.
    + intros x Hx. apply Hopen. by right.
    + intros i Hi. specialize (Hq (S i)).
      destruct sched as [|o sched]; [by destruct i|].
      apply Hq. simpl. lia.
Qed.

(** The loop over listeners whose peers are there, while the other tasks
    leave the set [s] of the agent as it is. *)
Lemma iterate_untouched_prefix uid s data payload pre : ∀ rest sched w,
  listeners_for uid w = s → json_encode data = Some payload →
  (∀ x, x ∈ pre → x ∉ closed w) →
  untouched_for (length pre) uid s sched →
  ∃ w1,
    iterate_subscribers uid (size s) (pre ++ rest) data sched w
    = iterate_subscribers uid (size s) rest data (drop (length pre) sched) w1
    ∧ table w1 = table w ∧ next_id w1 = next_id w ∧ closed w1 = closed w
    ∧ trace w1 = trace w ++ sends payload pre
    ∧ listeners_for uid w1 = s.
Proof.
  induction pre as [|ws pre IH]; intros rest sched w He Hj Hopen Hq.
  - exists w. rewrite drop_0, app_nil_r. by repeat split.
  - rewrite <- app_comm_cons.
    destruct (interleave_spec uid (default [] (head sched))
                (add_trace (sends payload [ws]) w))
      as (b & w1 & Hrun & Ht & Hn & _ & Hc & Htr & _ & Hquiet).
    destruct Hquiet as [-> Hl].
    { intros op Hin. change (listeners_for uid (add_trace (sends payload [ws]) w))
        with (listeners_for uid w). rewrite He.
      destruct sched as [|ops sched]; [by apply elem_of_nil in Hin|].
      apply (Hq 0%nat ops op); [simpl; lia|done|done]. }
    change (listeners_for uid (add_trace (sends payload [ws]) w))
      with (listeners_for uid w) in Hl.
    rewrite (iterate_step _ _ _ _ _ payload _ _ false w1);
      [|by rewrite He|done|apply Hopen; by left|done].
    simpl andb. cbv iota.
    destruct (IH rest (tail sched) w1) as (w2 & Hrun2 & Ht2 & Hn2 & Hc2 & Htr2 & Hl2).
    + by rewrite Hl.
    + done.
    + intros x Hx. rewrite Hc. apply Hopen. by right.
    + intros i ops op Hi Hops Hin. apply (Hq (S i) ops op); [simpl; lia| |done].
      by destruct sched.
    + exists w2. split.
      { rewrite Hrun2. destruct sched; simpl; [by rewrite drop_nil|done]. }
      rewrite Ht2, Hn2, Hc2, Htr2, Ht, Hn, Hc, Htr. simpl.
      repeat split; try done. by rewrite <- app_assoc.
Qed.

Lemma send_sched_unfold sched uid data w s :
  subscriptions w !! uid = Some s →
  send_data_to_subscribers_sched sched uid data w
  = iterate_subscribers uid (size s) (elements s) data sched
      (add_trace [EvPublish uid data] w).
Proof.
  intros Hs. unfold send_data_to_subscribers_sched, log, get_world, mbind, M_bind.
  simpl. by rewrite Hs.
Qed.

Lemma delivered_sends_other ws payload l :
  ws ∉ l → delivered ws (sends payload l) = [].
Proof.
  induction l as [|x l IH]; [done|].
  intros Hnin. simpl. rewrite decide_False by set_solver.
  apply IH. set_solver.
Qed.

Lemma quiet_for_nil n : quiet_for n [].
Proof. intros i _. by destruct i. Qed.

Lemma add_commit_refresh_inv item w row w1 :
  add_commit_refresh item w = (Ok row, w1) →
  row = db_item_of (next_id w) item
  ∧ w1 = insert_row row (set_faults (tail (faults w)) w).
Proof.
  destruct (decide (commit_succeeds w)) as [Hok|Hfail].
  - rewrite (add_commit_refresh_ok item w Hok). by intros [= <- <-].
  - rewrite add_commit_refresh_fails; [done|].
    unfold commit_succeeds in Hfail.
    destruct (head (faults w)) as [[]|]; [done|by destruct Hfail..].
Qed.

(** ** Delivery failures *)

(** C2, as the code has it.  The dispatcher has no handler around the send:
    when the peer of a listener is gone, the listeners visited before it
    have their frame, the error leaves the dispatcher, and the listeners
    that come after it in the iteration receive nothing.  When no peer is
    gone every listener of the agent is served.  The create handler has no
    handler either: whatever the publish call raises is raised by create,
    after the commit of the item, whose row stays in the table. *)
Theorem dispatcher_stops_at_first_failure :
  (∀ uid data payload w s pre ws post,
     subscriptions w !! uid = Some s →
     json_encode data = Some payload →
     elements s = pre ++ ws :: post →
     (∀ x, x ∈ pre → x ∉ closed w) →
     ws ∈ closed w →
     send_data_to_subscribers uid data w
     = (Raise ConnectionClosed, add_trace (EvPublish uid data :: sends payload pre) w)
     ∧ ∀ x, x ∈ post →
         delivered x (trace (add_trace (EvPublish uid data :: sends payload pre) w))
         = delivered x (trace w))
  ∧ (∀ uid data payload w s,
       subscriptions w !! uid = Some s →
       json_encode data = Some payload →
       (∀ x, x ∈ s → x ∉ closed w) →
       send_data_to_subscribers uid data w
       = (Ok tt, add_trace (EvPublish uid data :: sends payload (elements s)) w))
  ∧ (∀ item data w row w1 e w2,
       add_commit_refresh item w = (Ok row, w1) →
       send_data_to_subscribers (Models.user_id (agent_data item)) (PyModel item) w1
       = (Raise e, w2) →
       create_processed_agent_data (item :: data) w = (Raise e, w2)
       ∧ table w2 !! Tables.id row = Some row).
Proof.
  split; [|split].
  - intros uid data payload w s pre ws post Hs Hj Hel Hopen Hdead.
    unfold send_data_to_subscribers. rewrite (send_sched_unfold _ _ _ _ s Hs), Hel.
    assert (Hsize : ∀ evs, size (listeners_for uid (add_trace evs w)) = size s).
    { intros evs. unfold listeners_for. simpl. by rewrite Hs. }
    rewrite (iterate_quiet_prefix uid (size s) data payload pre (ws :: post) [] _
               (Hsize _) Hj Hopen (quiet_for_nil _)).
    rewrite add_trace_add_trace.
    rewrite (iterate_closed uid (size s) ws post data payload _ _ (Hsize _) Hj Hdead).
    split; [done|]. intros x Hx. simpl.
    rewrite delivered_app. simpl. rewrite delivered_sends_other, app_nil_r; [done|].
    pose proof (NoDup_elements s) as Hnd. rewrite Hel in Hnd.
    apply NoDup_app in Hnd as (_ & Hdisj & _).
    intros Hin. apply (Hdisj x Hin). by right.
  - intros uid data payload w s Hs Hj Hopen.
    unfold send_data_to_subscribers. rewrite (send_sched_unfold _ _ _ _ s Hs).
    assert (Hsize : ∀ evs, size (listeners_for uid (add_trace evs w)) = size s).
    { intros evs. unfold listeners_for. simpl. by rewrite Hs. }
    rewrite <- (app_nil_r (elements s)) at 1.
    assert (Hopen' : ∀ x, x ∈ elements s → x ∉ closed w).
    { intros x Hx. apply Hopen. by apply elem_of_elements. }
    rewrite (iterate_quiet_prefix uid (size s) data payload (elements s) [] [] _
               (Hsize _) Hj Hopen' (quiet_for_nil _)).
    rewrite add_trace_add_trace. by rewrite iterate_nil.
  - intros item data w row w1 e w2 Hadd Hsend. simpl.
    rewrite (bind_ok _ _ _ _ _ Hadd), (bind_raise _ _ _ _ _ Hsend).
    split; [done|].
    apply add_commit_refresh_inv in Hadd as [-> ->].
    rewrite send_model in Hsend. injection Hsend as _ <-. simpl.
    apply lookup_insert_eq.
Qed.

Lemma dispatcher_stops_at_first_failure_witness :
  send_data_to_subscribers 7 (PyStr "hi") one_dead
  = (Raise ConnectionClosed,
     add_trace (EvPublish 7 (PyStr "hi") :: sends (json_quote "hi") []) one_dead).
Proof.
  destruct dispatcher_stops_at_first_failure as [H _].
  apply (H 7 (PyStr "hi") (json_quote "hi") one_dead {[1%nat; 2%nat]} [] 2%nat [1%nat]).
  - vm_compute. reflexivity.
  - reflexivity.
  - vm_compute. reflexivity.
  - intros x Hx. by apply elem_of_nil in Hx.
  - vm_compute. set_solver.
Defined.

(** C2 as stated fails: with two listeners on agent 7 and the peer of the
    first visited one gone, the publish raises, and the second listener,
    registered and with a live connection, is delivered nothing.  On the
    create path the error of the publish call reaches the caller of
    create. *)
Lemma dispatcher_failure_not_isolated :
  fst (send_data_to_subscribers 7 (PyStr "hi") one_dead) = Raise ConnectionClosed
  ∧ 1%nat ∈ listeners_for 7 one_dead
  ∧ (1%nat ∉ closed one_dead)
  ∧ delivered 1%nat (trace (snd (send_data_to_subscribers 7 (PyStr "hi") one_dead))) = []
  ∧ fst (create_processed_agent_data [sample_item] one_dead) = Raise TypeError.
Proof.
  split; [reflexivity|]. split; [|split; [|split; reflexivity]].
  - vm_compute. set_solver.
  - vm_compute. set_solver.
Qed.

(** ** Registry changes during a publish *)

(** C10, as the code has it.  The dispatcher walks the registry's own set,
    not a copy.  An agent without an entry is published to nobody.  When
    the operations of the other tasks during the awaited sends leave the set
    of the agent as it is, every listener of the agent is served once.
    When the operations that run during one awaited send leave the set with
    another size, the registry keeps their changes and the next step of the
    iteration raises [RuntimeError]: the publish ends there, the error
    leaves the dispatcher, and the listeners not yet visited receive
    nothing. *)
Theorem publish_walks_live_set :
  (∀ sched uid data w,
     subscriptions w !! uid = None →
     send_data_to_subscribers_sched sched uid data w
     = (Ok tt, add_trace [EvPublish uid data] w))
  ∧ (∀ sched uid data payload w s,
       subscriptions w !! uid = Some s →
       json_encode data = Some payload →
       (∀ x, x ∈ s → x ∉ closed w) →
       untouched_for (size s) uid s sched →
       ∃ w',
         send_data_to_subscribers_sched sched uid data w = (Ok tt, w')
         ∧ trace w' = trace w ++ EvPublish uid data :: sends payload (elements s)
         ∧ listeners_for uid w' = s)
  ∧ (∀ sched uid data payload w s pre ws post ops,
       subscriptions w !! uid = Some s →
       json_encode data = Some payload →
       elements s = pre ++ ws :: post →
       (∀ x, x ∈ pre ++ [ws] → x ∉ closed w) →
       untouched_for (length pre) uid s sched →
       sched !! length pre = Some ops →
       size (registry_effects uid ops s) ≠ size s →
       ∃ w',
         send_data_to_subscribers_sched sched uid data w
         = (Raise (RuntimeError "Set changed size during iteration"), w')
         ∧ trace w' = trace w ++ EvPublish uid data :: sends payload (pre ++ [ws])
         ∧ listeners_for uid w' = registry_effects uid ops s
         ∧ ∀ x, x ∈ post → delivered x (trace w') = delivered x (trace w)).
Proof.
  split; [|split].
  - intros sched uid data w Hs.
    unfold send_data_to_subscribers_sched, log, get_world, mbind, M_bind.
    simpl. by rewrite Hs.
  - intros sched uid data payload w s Hs Hj Hopen Hq.
    rewrite (send_sched_unfold _ _ _ _ s Hs).
    assert (Hl : listeners_for uid (add_trace [EvPublish uid data] w) = s).
    { unfold listeners_for. simpl. by rewrite Hs. }
    assert (Hopen' : ∀ x, x ∈ elements s → x ∉ closed w).
    { intros x Hx. apply Hopen. by apply elem_of_elements. }
    assert (Hq' : untouched_for (length (elements s)) uid s sched) by done.
    destruct (iterate_untouched_prefix uid s data payload (elements s) [] sched _
                Hl Hj Hopen' Hq') as (w1 & Hrun & _ & _ & _ & Htr & Hl1).
    rewrite app_nil_r in Hrun. rewrite Hrun, iterate_nil by (by rewrite Hl1).
    exists w1. split; [done|]. split; [|done].
    rewrite Htr. simpl. by rewrite <- app_assoc.
  - intros sched uid data payload w s pre ws post ops Hs Hj Hel Hopen Hq Hops Hsz.
    rewrite (send_sched_unfold _ _ _ _ s Hs), Hel.
    assert (Hl : listeners_for uid (add_trace [EvPublish uid data] w) = s).
    { unfold listeners_for. simpl. by rewrite Hs. }
    assert (Hopen1 : ∀ x, x ∈ pre → x ∉ closed w).
    { intros x Hx. apply Hopen. apply elem_of_app. by left. }
    assert (Hopen2 : ws ∉ closed w).
    { apply Hopen. apply elem_of_app. right. by left. }
    destruct (iterate_untouched_prefix uid s data payload pre (ws :: post) sched _
                Hl Hj Hopen1 Hq) as (w1 & Hrun & _ & _ & Hc1 & Htr1 & Hl1).
    rewrite Hrun.
    assert (Hhead : default [] (head (drop (length pre) sched)) = ops).
    { by rewrite head_lookup, lookup_drop, Nat.add_0_r, Hops. }
    destruct (interleave_spec uid ops (add_trace (sends payload [ws]) w1))
      as (b & w2 & Hrun2 & _ & _ & _ & _ & Htr2 & Hl2 & _).
    change (listeners_for uid (add_trace (sends payload [ws]) w1))
      with (listeners_for uid w1) in Hl2. rewrite Hl1 in Hl2.
    rewrite (iterate_step _ _ _ _ _ payload _ _ b w2);
      [|by rewrite Hl1|done|by rewrite Hc1|by rewrite Hhead].
    rewrite (bool_decide_eq_false_2 (size (listeners_for uid w2) = size s))
      by (by rewrite Hl2).
    rewrite andb_false_r.
    exists w2. split; [apply iterate_changed; by rewrite Hl2|].
    assert (Htr' : trace w2 = trace w ++ EvPublish uid data :: sends payload (pre ++ [ws])).
    { rewrite Htr2. simpl. rewrite Htr1. simpl. unfold sends.
      by rewrite fmap_app, <- !app_assoc. }
    split; [done|]. split; [done|].
    intros x Hx. rewrite Htr', delivered_app. simpl.
    rewrite delivered_sends_other, app_nil_r; [done|].
    pose proof (NoDup_elements s) as Hnd. rewrite Hel in Hnd.
    apply NoDup_app in Hnd as (_ & Hdisj & Hnd2).
    apply NoDup_cons in Hnd2 as [Hws _].
    intros [Hin|Hin]%elem_of_app.
    + apply (Hdisj x Hin). by right.
    + apply list_elem_of_singleton in Hin as ->. done.
Qed.

Lemma publish_walks_live_set_witness :
  ∃ w', send_data_to_subscribers_sched [[Disconnect 2%nat 7]] 7 (PyStr "hi") two_listeners
        = (Raise (RuntimeError "Set changed size during iteration"), w')
        ∧ listeners_for 7 w' = registry_effects 7 [Disconnect 2%nat 7] {[1%nat; 2%nat]}
        ∧ delivered 1%nat (trace w') = delivered 1%nat (trace two_listeners).
Proof.
  destruct publish_walks_live_set as (_ & _ & H).
  destruct (H [[Disconnect 2%nat 7]] 7 (PyStr "hi") (json_quote "hi") two_listeners
              {[1%nat; 2%nat]} [] 2%nat [1%nat] [Disconnect 2%nat 7])
    as (w' & Hrun & _ & Hl & Hpost).
  - vm_compute. reflexivity.
  - reflexivity.
  - vm_compute. reflexivity.
  - intros x Hx. vm_compute. set_solver.
  - intros i ops op Hi. simpl in Hi. lia.
  - reflexivity.
  - vm_compute. lia.
  - exists w'. split; [exact Hrun|]. split; [exact Hl|]. apply Hpost. set_solver.
Defined.

(** C10 as stated fails: a listener of agent 7 disconnects while the frame
    for it is being sent; the registry drops it, the iteration raises at its
    next step, and the other listener, still registered and connected, is
    delivered nothing.  A listener that connects meanwhile has the same
    effect, and so have two that connect during the same send. *)
Lemma publish_disrupted_by_registry_change :
  fst (send_data_to_subscribers_sched [[Disconnect 2%nat 7]] 7 (PyStr "hi") two_listeners)
  = Raise (RuntimeError "Set changed size during iteration")
  ∧ 1%nat ∈ listeners_for 7
      (snd (send_data_to_subscribers_sched [[Disconnect 2%nat 7]] 7 (PyStr "hi")
              two_listeners))
  ∧ delivered 1%nat
      (trace (snd (send_data_to_subscribers_sched [[Disconnect 2%nat 7]] 7
                     (PyStr "hi") two_listeners))) = []
  ∧ fst (send_data_to_subscribers_sched [[Connect 3%nat 7]] 7 (PyStr "hi") two_listeners)
    = Raise (RuntimeError "Set changed size during iteration")
  ∧ fst (send_data_to_subscribers_sched [[Connect 3%nat 7; Connect 4%nat 7]] 7
           (PyStr "hi") two_listeners)
    = Raise (RuntimeError "Set changed size during iteration").
Proof.
  split; [reflexivity|]. split; [|split; [|split]; reflexivity].
  vm_compute. set_solver.
Qed.

(** ** Listing *)

Lemma list_processed_agent_data_run w :
  list_processed_agent_data w
  = (Ok (processed_data_of <$> (snd <$> map_to_list (table w))), w).
Proof. done. Qed.

Lemma read_present_iff pk item w :
  read_processed_agent_data pk w = (Ok item, w)
  ↔ ∃ row, table w !! pk = Some row ∧ processed_data_of row = item.
Proof.
  unfold read_processed_agent_data, query_first, mbind, M_bind.
  destruct (table w !! pk) as [row|]; simpl; split.
  - intros [= <-]. eauto.
  - by intros (row' & [= <-] & <-).
  - done.
  - by intros (row' & ? & _).
Qed.

(** X1.  Listing changes nothing and answers with one record per stored
    row: as many records as the table has rows, and a record is in the
    answer exactly when some id reads to it.  On an empty table the answer
    is the empty list. *)
Theorem list_returns_what_reads_return (w : World) :
  ∃ items,
    list_processed_agent_data w = (Ok items, w)
    ∧ length items = size (table w)
    ∧ (∀ item, item ∈ items ↔ ∃ pk, read_processed_agent_data pk w = (Ok item, w))
    ∧ (table w = ∅ → items = []).
Proof.
  eexists. split; [apply list_processed_agent_data_run|].
  split; [by rewrite !length_fmap, length_map_to_list|]. split.
  - intros item. rewrite <- list_fmap_compose. rewrite list_elem_of_fmap. split.
    + intros ([pk row] & -> & Hin). apply elem_of_map_to_list in Hin.
      exists pk. apply read_present_iff. eauto.
    + intros (pk & (row & Hrow & <-)%read_present_iff).
      exists (pk, row). split; [done|]. by apply elem_of_map_to_list.
  - intros ->. by rewrite map_to_list_empty.
Qed.

Lemma rows_from_models pk data : processed_data_of <$> rows_from pk data = data.
Proof.
  revert pk. induction data as [|item data IH]; intros pk; [done|].
  simpl. by rewrite processed_data_of_db_item, IH.
Qed.

Lemma map_to_list_store_rows data : ∀ pk (t : gmap Z ProcessedAgentDataDB),
  (∀ k r, t !! k = Some r → k < pk) →
  snd <$> map_to_list (store_rows (rows_from pk data) t)
  ≡ₚ (snd <$> map_to_list t) ++ rows_from pk data.
Proof.
  induction data as [|item data IH]; intros pk t Hlt.
  - simpl. by rewrite app_nil_r.
  - change (store_rows (rows_from pk (item :: data)) t)
      with (store_rows (rows_from (pk + 1) data) (<[pk := db_item_of pk item]> t)).
    rewrite IH.
    + assert (Hnone : t !! pk = None).
      { destruct (t !! pk) as [r|] eqn:Hr; [|done]. apply Hlt in Hr. lia. }
      rewrite (map_to_list_insert t pk _ Hnone). simpl.
      by rewrite <- Permutation_middle.
    + intros k r. destruct (decide (pk = k)) as [<-|Hne].
      * intros _. lia.
      * rewrite lookup_insert_ne by done. intros Hr%Hlt. lia.
Qed.

(** X2.  After a create that went through on a table whose rows sit below
    the sequence, listing answers with what it answered before together
    with the items of the batch (in some order). *)
Theorem list_after_create (data : list ProcessedAgentData) (w w' : World) :
  consistent w →
  create_processed_agent_data data w = (Ok tt, w') →
  ∃ before after,
    list_processed_agent_data w = (Ok before, w)
    ∧ list_processed_agent_data w' = (Ok after, w')
    ∧ after ≡ₚ before ++ data.
Proof.
  intros [Hrows _] Hrun.
  apply create_spec in Hrun as (n & _ & Hall & Htab & _).
  rewrite (Hall eq_refl), firstn_all in Htab.
  do 2 eexists. split; [apply list_processed_agent_data_run|].
  split; [apply list_processed_agent_data_run|].
  rewrite Htab, map_to_list_store_rows.
  - by rewrite fmap_app, rows_from_models.
  - intros k r Hr. by apply Hrows in Hr as [_ ?].
Qed.

Lemma list_after_create_witness :
  ∃ before after,
    list_processed_agent_data one_record = (Ok before, one_record)
    ∧ list_processed_agent_data
        (snd (create_processed_agent_data [wet_item; sample_item] one_record))
      = (Ok after, snd (create_processed_agent_data [wet_item; sample_item] one_record))
    ∧ after ≡ₚ before ++ [wet_item; sample_item].
Proof.
  apply (list_after_create [wet_item; sample_item] one_record).
  - apply (create_sound [sample_item] empty_world (Ok tt) one_record eq_refl).
    apply fresh_sound. split; reflexivity.
  - reflexivity.
Defined.

(** ** Update and delete on stored rows *)

Lemma commit_run change w :
  commit change w
  = if decide (commit_succeeds w)
    then (Ok tt, change (set_faults (tail (faults w)) w))
    else (Raise OperationalError, set_faults (tail (faults w)) w).
Proof.
  unfold commit.
  destruct (decide (commit_succeeds w)) as [H|H]; unfold commit_succeeds in H.
  - destruct w as [t n fs subs cl tr]; simpl in *.
    destruct fs as [|[] fs]; simpl in *; done.
  - destruct (faults w) as [|[] fs] eqn:Hf; simpl in *; [|done|]; by destruct H.
Qed.

Lemma update_present pk data w row :
  table w !! pk = Some row →
  update_processed_agent_data pk data w
  = if decide (commit_succeeds w)
    then (Ok data,
          set_table (<[Tables.id row := db_item_of (Tables.id row) data]> (table w))
            (set_faults (tail (faults w)) w))
    else (Raise OperationalError, set_faults (tail (faults w)) w).
Proof.
  intros Hrow. unfold update_processed_agent_data, query_first.
  unfold mbind at 1, M_bind. rewrite Hrow.
  unfold mbind, M_bind. rewrite commit_run.
  destruct (decide (commit_succeeds w)); [|done].
  simpl. by rewrite processed_data_of_db_item.
Qed.

Lemma delete_present pk w row :
  table w !! pk = Some row →
  delete_processed_agent_data pk w
  = if decide (commit_succeeds w)
    then (Ok (processed_data_of row),
          set_table (delete (Tables.id row) (table w)) (set_faults (tail (faults w)) w))
    else (Raise OperationalError, set_faults (tail (faults w)) w).
Proof.
  intros Hrow. unfold delete_processed_agent_data, query_first.
  unfold mbind at 1, M_bind. rewrite Hrow.
  unfold mbind, M_bind. rewrite commit_run.
  by destruct (decide (commit_succeeds w)).
Qed.

Lemma update_absent pk data w :
  table w !! pk = None →
  update_processed_agent_data pk data w
  = (Raise (HTTPException 404 "Processed agent data not found"), w).
Proof.
  intros Hrow. unfold update_processed_agent_data, query_first, mbind, M_bind.
  by rewrite Hrow.
Qed.

Lemma delete_absent pk w :
  table w !! pk = None →
  delete_processed_agent_data pk w
  = (Raise (HTTPException 404 "Processed agent data not found"), w).
Proof.
  intros Hrow. unfold delete_processed_agent_data, query_first, mbind, M_bind.
  by rewrite Hrow.
Qed.

Lemma read_run pk w :
  read_processed_agent_data pk w
  = (match table w !! pk with
     | Some row => Ok (processed_data_of row)
     | None => Raise AttributeError
     end, w).
Proof.
  unfold read_processed_agent_data, query_first, mbind, M_bind.
  by destruct (table w !! pk).
Qed.

(** X3.  When the engine fails the commit, update and delete of a stored
    row raise the engine's error and no row changes: every id reads as it
    did before. *)
Theorem failed_commit_changes_no_row (w : World) (pk : Z) (data : ProcessedAgentData)
    (row : ProcessedAgentDataDB) :
  table w !! pk = Some row →
  head (faults w) = Some true →
  (∃ w', update_processed_agent_data pk data w = (Raise OperationalError, w')
         ∧ table w' = table w
         ∧ ∀ k, fst (read_processed_agent_data k w') = fst (read_processed_agent_data k w))
  ∧ (∃ w', delete_processed_agent_data pk w = (Raise OperationalError, w')
           ∧ table w' = table w
           ∧ ∀ k, fst (read_processed_agent_data k w') = fst (read_processed_agent_data k w)).
Proof.
  intros Hrow Hfail.
  assert (Hn : ¬ commit_succeeds w) by (intros H; by apply H).
  split; eexists.
  - rewrite (update_present _ _ _ _ Hrow), decide_False by done.
    split; [reflexivity|]. split; [done|]. intros k. by rewrite !read_run.
  - rewrite (delete_present _ _ _ Hrow), decide_False by done.
    split; [reflexivity|]. split; [done|]. intros k. by rewrite !read_run.
Qed.

Lemma failed_commit_changes_no_row_witness :
  ∃ w', update_processed_agent_data 1 wet_item one_record_failing
        = (Raise OperationalError, w')
        ∧ table w' = table one_record_failing.
Proof.
  destruct (failed_commit_changes_no_row one_record_failing 1 wet_item
              (db_item_of 1 sample_item)) as [(w' & Hrun & Htab & _) _].
  - reflexivity.
  - reflexivity.
  - exists w'. split; [exact Hrun|exact Htab].
Defined.

(** X4.  Delete of a stored row, with a working commit, answers with the
    record that was stored and removes exactly that row: the other ids are
    untouched, and from then on the id is absent (read raises
    [AttributeError], update and a second delete raise the 404).  The
    sequence, the registry and the trace are left alone. *)
Theorem delete_removes_record (w : World) (pk : Z) (row : ProcessedAgentDataDB) :
  table w !! pk = Some row →
  Tables.id row = pk →
  commit_succeeds w →
  ∃ w',
    delete_processed_agent_data pk w = (Ok (processed_data_of row), w')
    ∧ table w' !! pk = None
    ∧ (∀ k, k ≠ pk → table w' !! k = table w !! k)
    ∧ read_processed_agent_data pk w' = (Raise AttributeError, w')
    ∧ (∀ data, update_processed_agent_data pk data w'
               = (Raise (HTTPException 404 "Processed agent data not found"), w'))
    ∧ delete_processed_agent_data pk w'
      = (Raise (HTTPException 404 "Processed agent data not found"), w')
    ∧ next_id w' = next_id w
    ∧ silent w w'.
Proof.
  intros Hrow Hid Hok. eexists.
  rewrite (delete_present _ _ _ Hrow), decide_True, Hid by done.
  split; [reflexivity|].
  assert (Hgone : delete pk (table w) !! pk = None) by apply lookup_delete_eq.
  split; [exact Hgone|]. split.
  { intros k Hk. simpl. by rewrite lookup_delete_ne. }
  split; [by rewrite read_run; simpl; rewrite Hgone|].
  split; [intros data; by apply update_absent|].
  split; [by apply delete_absent|]. by repeat split.
Qed.

Lemma delete_removes_record_witness :
  ∃ w', delete_processed_agent_data 1 one_record = (Ok sample_item, w')
        ∧ read_processed_agent_data 1 w' = (Raise AttributeError, w').
Proof.
  destruct (delete_removes_record one_record 1 (db_item_of 1 sample_item))
    as (w' & Hrun & _ & _ & Hread & _).
  - reflexivity.
  - reflexivity.
  - unfold commit_succeeds. simpl. discriminate.
  - exists w'. split; [exact Hrun|exact Hread].
Defined.

Lemma update_silent pk data w :
  silent w (snd (update_processed_agent_data pk data w))
  ∧ next_id (snd (update_processed_agent_data pk data w)) = next_id w.
Proof.
  destruct (table w !! pk) as [row|] eqn:Hrow.
  - rewrite (update_present _ _ _ _ Hrow). by destruct (decide (commit_succeeds w)).
  - by rewrite (update_absent _ _ _ Hrow).
Qed.

Lemma delete_silent pk w :
  silent w (snd (delete_processed_agent_data pk w))
  ∧ next_id (snd (delete_processed_agent_data pk w)) = next_id w.
Proof.
  destruct (table w !! pk) as [row|] eqn:Hrow.
  - rewrite (delete_present _ _ _ Hrow). by destruct (decide (commit_succeeds w)).
  - by rewrite (delete_absent _ _ Hrow).
Qed.

(** X5.  Read, list, update and delete never publish: whatever their
    arguments and outcome, the trace has no new commit-of-insert, publish
    call or frame, no listener is delivered anything, and the registry and
    the sequence are as before.  In particular an update that moves a record
    to another [user_id] tells nobody. *)
Theorem crud_handlers_never_publish (w : World) (pk : Z) (data : ProcessedAgentData) :
  (silent w (snd (read_processed_agent_data pk w))
   ∧ snd (read_processed_agent_data pk w) = w)
  ∧ (silent w (snd (list_processed_agent_data w))
     ∧ snd (list_processed_agent_data w) = w)
  ∧ (silent w (snd (update_processed_agent_data pk data w))
     ∧ next_id (snd (update_processed_agent_data pk data w)) = next_id w)
  ∧ (silent w (snd (delete_processed_agent_data pk w))
     ∧ next_id (snd (delete_processed_agent_data pk w)) = next_id w)
  ∧ (∀ ws, delivered ws (trace (snd (update_processed_agent_data pk data w)))
           = delivered ws (trace w)
           ∧ delivered ws (trace (snd (delete_processed_agent_data pk w)))
             = delivered ws (trace w)).
Proof.
  split; [|split; [|split; [|split]]].
  - by rewrite read_run.
  - done.
  - apply update_silent.
  - apply delete_silent.
  - intros ws.
    destruct (update_silent pk data w) as [(-> & _) _].
    by destruct (delete_silent pk w) as [(-> & _) _].
Qed.

(** X6.  Two updates of the same stored id, both committed, leave the table
    that the second update alone would have left, and answer the second
    time with the second record: the last write wins, and repeating an
    update changes nothing more. *)
Theorem update_last_write_wins (w : World) (pk : Z) (d1 d2 : ProcessedAgentData)
    (row : ProcessedAgentDataDB) :
  table w !! pk = Some row →
  Tables.id row = pk →
  commits_work 2 w →
  table (snd (update_processed_agent_data pk d2
                (snd (update_processed_agent_data pk d1 w))))
  = table (snd (update_processed_agent_data pk d2 w))
  ∧ fst (update_processed_agent_data pk d2
           (snd (update_processed_agent_data pk d1 w))) = Ok d2
  ∧ fst (read_processed_agent_data pk
           (snd (update_processed_agent_data pk d2
                   (snd (update_processed_agent_data pk d1 w))))) = Ok d2.
Proof.
  intros Hrow Hid Hwork.
  pose proof (commits_work_head _ _ Hwork) as Hok.
  rewrite (update_present pk d1 w row Hrow), decide_True, Hid by done. simpl.
  set (w1 := set_table _ _).
  assert (Hrow1 : table w1 !! pk = Some (db_item_of pk d1)) by apply lookup_insert_eq.
  assert (Hok1 : commit_succeeds w1).
  { apply (commits_work_head 0). by apply (commits_work_tail 1 w). }
  rewrite (update_present pk d2 w1 _ Hrow1), decide_True by done.
  rewrite (update_present pk d2 w row Hrow), decide_True, Hid by done. simpl.
  split; [apply insert_insert_eq|]. split; [done|].
  rewrite read_run. simpl. by rewrite lookup_insert_eq, processed_data_of_db_item.
Qed.

Lemma update_last_write_wins_witness :
  fst (read_processed_agent_data 1
         (snd (update_processed_agent_data 1 wet_item
                 (snd (update_processed_agent_data 1 sample_item one_record)))))
  = Ok wet_item.
Proof.
  apply (update_last_write_wins one_record 1 sample_item wet_item
           (db_item_of 1 sample_item)).
  - reflexivity.
  - reflexivity.
  - intros b Hb. vm_compute in Hb. by apply elem_of_nil in Hb.
Defined.

(** ** Invariants of the histories *)

(** X7.  Over any history of requests on a fresh database a row found under
    an id carries that id, and the record it answers with is the one read
    under that id: no handler ever rewrites the [id] column. *)
Theorem stored_rows_keep_their_id (rs : list request) (w : World) (pk : Z)
    (row : ProcessedAgentDataDB) :
  fresh w →
  table (serve_all rs w) !! pk = Some row →
  Tables.id row = pk
  ∧ read_processed_agent_data (Tables.id row) (serve_all rs w)
    = (Ok (processed_data_of row), serve_all rs w).
Proof.
  intros Hfresh Hrow.
  destruct (serve_all_sound rs w (fresh_sound w Hfresh)) as [[Hrows _] _].
  destruct (Hrows pk row Hrow) as [Hid _]. split; [done|].
  by rewrite read_run, Hid, Hrow.
Qed.

Lemma stored_rows_keep_their_id_witness :
  Tables.id (db_item_of 1 wet_item) = 1
  ∧ read_processed_agent_data (Tables.id (db_item_of 1 wet_item))
      (serve_all [Post [to_wire sample_item]; Put 1 wet_item] empty_world)
    = (Ok (processed_data_of (db_item_of 1 wet_item)),
       serve_all [Post [to_wire sample_item]; Put 1 wet_item] empty_world).
Proof.
  apply (stored_rows_keep_their_id [Post [to_wire sample_item]; Put 1 wet_item]
           empty_world 1 (db_item_of 1 wet_item)).
  - split; reflexivity.
  - reflexivity.
Defined.

(** ** More on the create handler *)

(** X8.  A run of the create handler, whatever its outcome, leaves every
    record that was stored before as it was (given that the stored rows sit
    below the sequence), and never touches the registry or the state of the
    connections. *)
Theorem create_keeps_existing_records (data : list ProcessedAgentData)
    (w w' : World) (r : result unit) :
  consistent w →
  create_processed_agent_data data w = (r, w') →
  (∀ pk row, table w !! pk = Some row →
     table w' !! pk = Some row
     ∧ read_processed_agent_data pk w' = (Ok (processed_data_of row), w'))
  ∧ subscriptions w' = subscriptions w
  ∧ closed w' = closed w.
Proof.
  intros [Hrows _] Hrun.
  apply create_spec in Hrun as (n & _ & _ & Htab & _ & _ & Hsubs & Hcl).
  split; [|done]. intros pk row Hrow.
  assert (Hnew : table w' !! pk = Some row).
  { rewrite Htab, store_rows_lookup_lt; [done|]. by apply Hrows in Hrow as [_ ?]. }
  split; [done|]. by rewrite read_run, Hnew.
Qed.

Lemma create_keeps_existing_records_witness :
  table (snd (create_processed_agent_data [wet_item] one_record)) !! 1
  = Some (db_item_of 1 sample_item).
Proof.
  destruct (create_keeps_existing_records [wet_item] one_record
              (snd (create_processed_agent_data [wet_item] one_record)) (Ok tt))
    as [H _].
  - apply (create_sound [sample_item] empty_world (Ok tt) one_record eq_refl).
    apply fresh_sound. split; reflexivity.
  - reflexivity.
  - apply (H 1 (db_item_of 1 sample_item)). reflexivity.
Defined.

(** X9.  When no item of the batch has a listener on its agent and the
    engine commits, the create handler succeeds: every item is stored, in
    order, under consecutive ids starting at the sequence, the trace gets
    the commit and the publish call of each, and no frame is sent. *)
Theorem create_without_listeners (data : list ProcessedAgentData) (w : World) :
  (∀ item, item ∈ data → listeners_for (Models.user_id (agent_data item)) w = ∅) →
  commits_work (length data) w →
  ∃ w',
    create_processed_agent_data data w = (Ok tt, w')
    ∧ table w' = store_rows (rows_from (next_id w) data) (table w)
    ∧ next_id w' = next_id w + Z.of_nat (length data)
    ∧ trace w' = trace w ++ pipeline_events (rows_from (next_id w) data)
    ∧ ∀ (i : nat) item, data !! i = Some item →
        read_processed_agent_data (next_id w + Z.of_nat i) w' = (Ok item, w').
Proof.
  intros Hnone Hwork.
  pose proof (create_ok_without_listeners data w Hnone Hwork) as Hok.
  destruct (create_processed_agent_data data w) as [r w'] eqn:Hrun.
  simpl in Hok. subst r. exists w'. split; [done|].
  apply create_spec in Hrun as (n & _ & Hall & Htab & Hnext & Htr & _).
  rewrite (Hall eq_refl), firstn_all in *.
  repeat split; try done.
  intros i item Hi.
  by rewrite read_run, Htab, (store_rows_lookup data _ _ i item Hi),
    processed_data_of_db_item.
Qed.

Lemma create_without_listeners_witness :
  ∃ w', create_processed_agent_data [sample_item; wet_item] empty_world = (Ok tt, w')
        ∧ next_id w' = 1 + Z.of_nat 2.
Proof.
  destruct (create_without_listeners [sample_item; wet_item] empty_world)
    as (w' & Hrun & _ & Hnext & _).
  - intros item Hin. reflexivity.
  - intros b Hb. vm_compute in Hb. by apply elem_of_nil in Hb.
  - exists w'. split; [exact Hrun|exact Hnext].
Defined.

(** X10.  The create handler on a batch is the handler on its first part
    followed, when that went through, by the handler on the rest, from the
    world the first part left; when the first part fails, the batch fails
    in the same way and the rest is not touched.  The empty batch does
    nothing. *)
Theorem create_batches_compose (pre post : list ProcessedAgentData) (w : World) :
  create_processed_agent_data (pre ++ post) w
  = match create_processed_agent_data pre w with
    | (Ok _, w1) => create_processed_agent_data post w1
    | (Raise e, w1) => (Raise e, w1)
    end
  ∧ create_processed_agent_data [] w = (Ok tt, w).
Proof. split; [|done]. rewrite create_app. by unfold mbind, M_bind. Qed.

(** ** More on the registry *)

Lemma serve_keeps_entries r w uid :
  uid ∈ dom (subscriptions w) → uid ∈ dom (subscriptions (serve r w)).
Proof.
  intros Hin. destruct r as [body|pk| |pk data|pk|ws u|ws u]; simpl.
  - unfold post_processed_agent_data.
    destruct (validate_body body) as [data|[]]; try done.
    destruct (create_processed_agent_data data w) as [r w'] eqn:Hrun.
    apply create_spec in Hrun as (n & _ & _ & _ & _ & _ & Hsubs & _).
    simpl. by rewrite Hsubs.
  - by rewrite read_run.
  - done.
  - by destruct (update_silent pk data w) as [(_ & -> & _) _].
  - by destruct (delete_silent pk w) as [(_ & -> & _) _].
  - destruct (websocket_endpoint_open_spec ws u w) as (w' & Hrun & Hsubs & _).
    rewrite Hrun. simpl. rewrite Hsubs, dom_insert_L. set_solver.
  - unfold websocket_endpoint_close, get_world, set_subscriptions, mbind, M_bind.
    destruct (subscriptions w !! u) as [s|]; [|done].
    destruct (decide (ws ∈ s)); [|done].
    simpl. rewrite dom_insert_L. set_solver.
Qed.

(** X13.  No request removes an agent's entry from the registry: an agent
    that has an entry keeps it over any history, and a whole run of the
    websocket endpoint leaves an entry behind, empty when its listener was
    the only one. *)
Theorem registry_entries_persist :
  (∀ rs w uid,
     uid ∈ dom (subscriptions w) → uid ∈ dom (subscriptions (serve_all rs w)))
  ∧ (∀ ws uid received w,
       uid ∈ dom (subscriptions (snd (websocket_endpoint ws uid received w)))
       ∧ (listeners_for uid w ⊆ {[ws]} →
          subscriptions (snd (websocket_endpoint ws uid received w)) !! uid = Some ∅)).
Proof.
  split.
  - intros rs. induction rs as [|r rs IH]; intros w uid Hin; [done|].
    simpl. apply IH. by apply serve_keeps_entries.
  - intros ws uid received w. unfold websocket_endpoint.
    destruct (websocket_endpoint_open_spec ws uid w) as (w1 & Hopen & Hsubs1 & _).
    rewrite (bind_ok _ _ _ _ _ Hopen).
    rewrite (bind_ok _ _ _ _ _ (for_each_skip received w1)).
    assert (Hs1 : subscriptions w1 !! uid = Some (listeners_for uid w ∪ {[ws]})).
    { rewrite Hsubs1. apply lookup_insert_eq. }
    destruct (websocket_endpoint_close_present ws uid w1 _ Hs1)
      as (w2 & Hclose & Hsubs2 & _); [set_solver|].
    rewrite Hclose. simpl. rewrite Hsubs2. split.
    + rewrite dom_insert_L. set_solver.
    + intros Hsub. rewrite lookup_insert_eq. f_equal. apply set_eq. set_solver.
Qed.

Lemma registry_entries_persist_witness :
  7 ∈ dom (subscriptions (serve_all [WsDisconnect 1%nat 7; WsDisconnect 2%nat 7;
                                      Post [to_wire sample_item]] two_listeners)).
Proof.
  destruct registry_entries_persist as [H _]. apply H.
  vm_compute. set_solver.
Defined.

(** ** More on the dispatcher *)

Lemma iterate_unserializable uid used ws pending data sched w :
  size (listeners_for uid w) = used → json_encode data = None →
  iterate_subscribers uid used (ws :: pending) data sched w = (Raise TypeError, w).
Proof.
  intros He Hj. unfold listeners_for in He. simpl.
  rewrite (bind_ok get_world _ w w w) by done.
  rewrite decide_True by done.
  assert (Hd : json_dumps data w = (Raise TypeError, w)).
  { unfold json_dumps. by rewrite Hj. }
  by rewrite (bind_raise _ _ _ _ _ Hd).
Qed.

(** What a run of the loop can have done, whatever the schedule and the
    outcome. *)
Lemma iterate_frame uid used data pending : ∀ sched w r w',
  iterate_subscribers uid used pending data sched w = (r, w') →
  table w' = table w ∧ next_id w' = next_id w ∧ faults w' = faults w
  ∧ closed w' = closed w
  ∧ ∃ served, trace w' = trace w ++ sends (default EmptyString (json_encode data)) served
              ∧ ∀ x, x ∈ served → x ∈ pending.
Proof.
  assert (Hstop : ∀ (w : World) (l : list WebSocket),
    table w = table w ∧ next_id w = next_id w ∧ faults w = faults w
    ∧ closed w = closed w
    ∧ ∃ served, trace w = trace w ++ sends (default EmptyString (json_encode data)) served
                ∧ ∀ x, x ∈ served → x ∈ l).
  { intros w l. repeat split. exists []. simpl. rewrite app_nil_r.
    split; [done|]. by intros x ?%elem_of_nil. }
  induction pending as [|ws pending IH]; intros sched w r w' Hrun.
  - destruct (decide (size (listeners_for uid w) = used)) as [He|Hne].
    + rewrite iterate_nil in Hrun by done. injection Hrun as <- <-. apply Hstop.
    + rewrite iterate_changed in Hrun by done. injection Hrun as <- <-. apply Hstop.
  - destruct (decide (size (listeners_for uid w) = used)) as [He|Hne];
      [|rewrite iterate_changed in Hrun by done; injection Hrun as <- <-; apply Hstop].
    destruct (json_encode data) as [payload|] eqn:Hj;
      [|rewrite iterate_unserializable in Hrun by done;
        injection Hrun as <- <-; apply Hstop].
    destruct (decide (ws ∈ closed w)) as [Hc|Hc].
    { rewrite (iterate_closed _ _ _ _ _ payload) in Hrun by done.
      injection Hrun as <- <-. apply Hstop. }
    destruct (interleave_spec uid (default [] (head sched))
                (add_trace (sends payload [ws]) w))
      as (b & w1 & Hint & Ht1 & Hn1 & Hf1 & Hcl1 & Htr1 & _).
    rewrite (iterate_step _ _ _ _ _ payload _ _ b w1) in Hrun by done.
    simpl in Ht1, Hn1, Hf1, Hcl1, Htr1.
    destruct (b && bool_decide (size (listeners_for uid w1) = used)).
    + injection Hrun as <- <-. repeat split; try done.
      exists [ws]. split; [done|]. intros x Hx. by apply elem_of_cons; left;
        apply list_elem_of_singleton in Hx.
    + apply IH in Hrun as (Ht & Hn & Hf & Hcl & served & Htr & Hsub).
      rewrite Ht1 in Ht. rewrite Hn1 in Hn. rewrite Hf1 in Hf. rewrite Hcl1 in Hcl.
      rewrite Htr1 in Htr. simpl in *.
      repeat split; try done.
      exists (ws :: served). split.
      * rewrite Htr. simpl. by rewrite <- app_assoc.
      * intros x [->|Hx]%elem_of_cons; [by left|]. right. by apply Hsub.
Qed.

(** X14.  Whatever the value and the schedule of the other tasks, a publish
    whose iteration stays determined (no awaited send during which the set
    of the agent was changed and left at its size) never writes the table,
    the sequence or the state of the connections, and delivers nothing to a
    websocket that was not in the set of the agent when the publish
    started: the listeners of the other agents never see it. *)
Theorem publish_reaches_only_its_agent (sched : list (list registry_op))
    (uid : Z) (data : pyobj) (w w' : World) (r : result unit) :
  send_data_to_subscribers_sched sched uid data w = (r, w') →
  (∀ what, r ≠ Raise (NotModelled what)) →
  table w' = table w
  ∧ next_id w' = next_id w
  ∧ closed w' = closed w
  ∧ ∀ ws, ws ∉ listeners_for uid w → delivered ws (trace w') = delivered ws (trace w).
Proof.
  intros Hrun _. destruct (subscriptions w !! uid) as [s|] eqn:Hs.
  - rewrite (send_sched_unfold _ _ _ _ s Hs) in Hrun.
    apply iterate_frame in Hrun as (Ht & Hn & _ & Hcl & served & Htr & Hsub).
    repeat split; try done.
    intros ws Hws. rewrite Htr. simpl. rewrite <- app_assoc, !delivered_app. simpl.
    rewrite delivered_sends_other, app_nil_r; [done|].
    intros Hin%Hsub%elem_of_elements. apply Hws. unfold listeners_for. by rewrite Hs.
  - unfold send_data_to_subscribers_sched, log, get_world, mbind, M_bind in Hrun.
    simpl in Hrun. rewrite Hs in Hrun. injection Hrun as <- <-. simpl.
    repeat split. intros ws _. by rewrite delivered_app, app_nil_r.
Qed.

Lemma publish_reaches_only_its_agent_witness :
  (3%nat ∉ listeners_for 7 two_listeners)
  ∧ delivered 3%nat
      (trace (snd (send_data_to_subscribers_sched [[Connect 3%nat 8; Connect 4%nat 7]] 7
                     (PyStr "hi") two_listeners)))
    = delivered 3%nat (trace two_listeners).
Proof.
  assert (H3 : 3%nat ∉ listeners_for 7 two_listeners) by (vm_compute; set_solver).
  split; [exact H3|].
  destruct (publish_reaches_only_its_agent [[Connect 3%nat 8; Connect 4%nat 7]] 7
              (PyStr "hi") two_listeners
              (snd (send_data_to_subscribers_sched [[Connect 3%nat 8; Connect 4%nat 7]] 7
                      (PyStr "hi") two_listeners))
              (Raise (RuntimeError "Set changed size during iteration")))
    as (_ & _ & _ & H).
  - reflexivity.
  - intros what. discriminate.
  - apply (H 3%nat H3).
Defined.

Lemma delivered_sends_once ws payload l :
  NoDup l → ws ∈ l → delivered ws (sends payload l) = [frame_text payload].
Proof.
  induction 1 as [|x l Hx Hnd IH]; [by intros ?%elem_of_nil|].
  intros [->|Hin]%elem_of_cons; simpl.
  - rewrite decide_True by done. by rewrite delivered_sends_other.
  - rewrite decide_False by (intros ->; done). by apply IH.
Qed.

(** X15.  When the value is JSON-serializable, no peer of a listener of the
    agent is gone, and the operations of the other tasks during the awaited
    sends leave the set of the agent as it is (they are on other agents, or
    add a listener that is there, or fail to remove one that is not), the
    publish succeeds and every listener of the agent gets exactly one new
    frame: the text [json.dumps] returned, encoded once more by
    [send_json]. *)
Theorem publish_serves_each_listener_once (sched : list (list registry_op))
    (uid : Z) (data : pyobj) (payload : string) (w : World) (s : gset WebSocket) :
  subscriptions w !! uid = Some s →
  json_encode data = Some payload →
  (∀ x, x ∈ s → x ∉ closed w) →
  untouched_for (size s) uid s sched →
  ∃ w',
    send_data_to_subscribers_sched sched uid data w = (Ok tt, w')
    ∧ trace w' = trace w ++ EvPublish uid data :: sends payload (elements s)
    ∧ listeners_for uid w' = s
    ∧ ∀ ws, ws ∈ s →
        delivered ws (trace w') = delivered ws (trace w) ++ [frame_text payload].
Proof.
  intros Hs Hj Hopen Hq. rewrite (send_sched_unfold _ _ _ _ s Hs).
  assert (Hl : listeners_for uid (add_trace [EvPublish uid data] w) = s).
  { unfold listeners_for. simpl. by rewrite Hs. }
  assert (Hopen' : ∀ x, x ∈ elements s → x ∉ closed w).
  { intros x Hx. apply Hopen. by apply elem_of_elements. }
  assert (Hq' : untouched_for (length (elements s)) uid s sched) by done.
  destruct (iterate_untouched_prefix uid s data payload (elements s) [] sched _
              Hl Hj Hopen' Hq') as (w1 & Hrun & _ & _ & _ & Htr & Hl1).
  rewrite app_nil_r in Hrun. rewrite Hrun, iterate_nil by (by rewrite Hl1).
  exists w1. split; [done|].
  assert (Htr' : trace w1 = trace w ++ EvPublish uid data :: sends payload (elements s)).
  { rewrite Htr. simpl. by rewrite <- app_assoc. }
  split; [done|]. split; [done|].
  intros ws Hws. rewrite Htr', delivered_app. simpl.
  rewrite delivered_sends_once; [done|apply NoDup_elements|by apply elem_of_elements].
Qed.

Lemma publish_serves_each_listener_once_witness :
  ∃ w', send_data_to_subscribers_sched [[Connect 3%nat 8; Connect 2%nat 7]] 7
          (PyStr "hi") two_listeners = (Ok tt, w')
        ∧ delivered 1%nat (trace w')
          = delivered 1%nat (trace two_listeners) ++ [frame_text (json_quote "hi")].
Proof.
  destruct (publish_serves_each_listener_once [[Connect 3%nat 8; Connect 2%nat 7]] 7
              (PyStr "hi") (json_quote "hi") two_listeners {[1%nat; 2%nat]})
    as (w' & Hrun & _ & _ & Hall).
  - vm_compute. reflexivity.
  - reflexivity.
  - intros x Hx. vm_compute. set_solver.
  - intros i ops op Hi Hops Hin.
    destruct i as [|i]; [|by destruct i].
    injection Hops as <-.
    apply elem_of_cons in Hin as [->|Hin]; [left; lia|].
    apply list_elem_of_singleton in Hin as ->. right. set_solver.
  - exists w'. split; [exact Hrun|]. apply Hall. set_solver.
Defined.

(** ** Frames over a history *)

Lemma serve_delivers_nothing r w ws :
  delivered ws (trace (serve r w)) = delivered ws (trace w).
Proof.
  destruct r as [body|pk| |pk data|pk|ws' u|ws' u]; simpl.
  - unfold post_processed_agent_data.
    destruct (validate_body body) as [data|[]]; try done.
    destruct (create_processed_agent_data data w) as [r w'] eqn:Hrun.
    by apply (create_never_delivers data w r w').
  - by rewrite read_run.
  - done.
  - by destruct (update_silent pk data w) as [(-> & _) _].
  - by destruct (delete_silent pk w) as [(-> & _) _].
  - destruct (websocket_endpoint_open_spec ws' u w) as (w' & Hrun & _ & _ & _ & _ & _ & Htr).
    rewrite Hrun. simpl. by rewrite Htr.
  - destruct (websocket_endpoint_close_fields ws' u w) as (_ & _ & _ & _ & Htr & _).
    by rewrite Htr.
Qed.

(** X16.  Over any history of requests served by the endpoints (posts,
    reads, listings, updates, deletes, connections and disconnections) no
    listener is ever delivered a frame: the only publish calls are those of
    the create handler, on model instances, and they end before the first
    send. *)
Theorem no_frame_over_any_history (rs : list request) (w : World) (ws : WebSocket) :
  delivered ws (trace (serve_all rs w)) = delivered ws (trace w)
  ∧ (trace w = [] → ∀ ws' payload, EvSend ws' payload ∉ trace (serve_all rs w)).
Proof.
  assert (Hall : ∀ rs w ws,
            delivered ws (trace (serve_all rs w)) = delivered ws (trace w)).
  { clear. intros rs. induction rs as [|r rs IH]; intros w ws; [done|].
    simpl. by rewrite IH, serve_delivers_nothing. }
  split; [apply Hall|].
  intros Hnil ws' payload Hin.
  assert (Hd : payload ∈ delivered ws' (trace (serve_all rs w))).
  { unfold delivered. apply list_elem_of_omap. exists (EvSend ws' payload).
    split; [done|]. by rewrite decide_True. }
  rewrite Hall, Hnil in Hd. by apply elem_of_nil in Hd.
Qed.

Lemma no_frame_over_any_history_witness :
  EvSend 1%nat (json_quote "hi")
  ∉ trace (serve_all [WsConnect 1%nat 7; Post [to_wire sample_item]; Put 1 wet_item]
             empty_world).
Proof.
  destruct (no_frame_over_any_history
              [WsConnect 1%nat 7; Post [to_wire sample_item]; Put 1 wet_item]
              empty_world 1%nat) as [_ H].
  apply H. reflexivity.
Defined.

(** ** An instance of the listing *)

Lemma list_returns_what_reads_return_witness :
  ∃ items, list_processed_agent_data empty_world = (Ok items, empty_world) ∧ items = [].
Proof.
  destruct (list_returns_what_reads_return empty_world) as (items & Hrun & _ & _ & Hnil).
  exists items. split; [exact Hrun|]. apply Hnil. reflexivity.
Defined.
